(** * check_crab_jobs: reconciliation of CRAB job outputs

    A shallow embedding of [check_crab_jobs.py] and the properties of its
    reconciliation engine.  Python sets of strings are [gset string], the
    JSON dictionaries keyed by job id are [gmap string _], exceptions are an
    explicit outcome, and the sets that the script mutates in place are
    threaded through as state. *)

From Stdlib Require Import ZArith String Ascii List Bool Lia.
From Stdlib Require Floats.SpecFloat.
From stdpp Require Import base option list gmap strings fin_sets fin_maps.

Set Warnings "-clear-no-such-hyp".

Local Open Scope string_scope.
Local Open Scope Z_scope.

(** ** Python strings *)

Module PyStr.

(** [s.endswith(suf)] *)
Definition endswith (s suf : string) : bool :=
  let n := String.length s in
  let k := String.length suf in
  (k <=? n)%nat && String.eqb (substring (n - k) k s) suf.

(** [s.startswith(pre)] *)
Definition startswith (s pre : string) : bool := String.prefix pre s.

(** [s.split(sep)] for a one-character separator: never empty. *)
Fixpoint split_aux (sep : ascii) (cur : string) (s : string) : list string :=
  match s with
  | EmptyString => [String.rev cur]
  | String c s' =>
      if Ascii.eqb c sep then String.rev cur :: split_aux sep EmptyString s'
      else split_aux sep (String c cur) s'
  end.

Definition split (sep : ascii) (s : string) : list string :=
  split_aux sep EmptyString s.

(** [sep.join(parts)] *)
Definition join (sep : string) (parts : list string) : string :=
  String.concat sep parts.

(** [s.lstrip(c)] and [s.strip(c)] for a one-character set. *)
Fixpoint lstrip (c : ascii) (s : string) : string :=
  match s with
  | String d s' => if Ascii.eqb d c then lstrip c s' else s
  | EmptyString => EmptyString
  end.

Definition strip (c : ascii) (s : string) : string :=
  String.rev (lstrip c (String.rev (lstrip c s))).

(** Decimal digits of a natural number, as printed by [str] and by
    f-strings. *)
Definition digit (n : nat) : ascii := ascii_of_nat (48 + n).

Fixpoint digits_aux (fuel : nat) (n : nat) (acc : string) : string :=
  match fuel with
  | O => acc
  | S fuel' =>
      let acc' := String (digit (n mod 10)) acc in
      if (n / 10 =? 0)%nat then acc' else digits_aux fuel' (n / 10) acc'
  end.

Definition digits (n : nat) : string := digits_aux (S n) n EmptyString.

Fixpoint zeros (k : nat) : string :=
  match k with
  | O => EmptyString
  | S k' => String "0" (zeros k')
  end.

(** The string of two line feeds. *)
Definition two_newlines : string :=
  String (ascii_of_nat 10) (String (ascii_of_nat 10) EmptyString).

(** [f"{i:04d}"] for [i >= 0]: the decimal digits, left-padded with zeros
    to four characters. *)
Definition fmt_04d (i : nat) : string :=
  let d := digits i in
  zeros (4 - String.length d) +:+ d.

End PyStr.

(** ** Exceptions and outcomes *)

Inductive exn : Type :=
  | ValueError
  | KeyError
  | TypeError
  | IndexError
  | NotImplementedError.

Inductive outcome : Type :=
  | Returned
  | Raised (e : exn).

#[global] Instance exn_eq_dec : EqDecision exn.
Proof. solve_decision. Defined.

#[global] Instance outcome_eq_dec : EqDecision outcome.
Proof. solve_decision. Defined.

(** ** Job records *)

(** One entry of the [details] dictionary of a status file.  The docstring
    of [check_job_outputs] requires the keyword ['State']; the other keys
    are not read by the script. *)
Record job_info : Type := { State : string }.

(** The name that a job's output file ends with: [f"nano_{x}.root"]. *)
Definition nano_name (x : string) : string := "nano_" +:+ x +:+ ".root".

(** [any(path.endswith(f"nano_{x}.root") for path in job_outputs)] *)
Definition has_output (job_outputs : gset string) (x : string) : bool :=
  existsb (fun path => PyStr.endswith path (nano_name x)) (elements job_outputs).

(** [any(x.endswith(f"nano_{id}.root") for id in relevant_ids)] *)
Definition from_ids (relevant_ids : gset string) (x : string) : bool :=
  existsb (fun id => PyStr.endswith x (nano_name id)) (elements relevant_ids).

(** First filter of [check_job_outputs]: the ids whose state is [state]. *)
Definition ids_in_state (job_details : gmap string job_info) (state : string)
  : gset string :=
  dom (filter (fun kv => State kv.2 = state) job_details).

(** Second filter: applied only when [job_outputs] is a set and is not
    empty. *)
Definition relevant_ids (job_details : gmap string job_info) (state : string)
    (job_outputs : option (gset string)) : gset string :=
  let ids := ids_in_state job_details state in
  match job_outputs with
  | Some outs =>
      if decide (size outs = 0%nat) then ids
      else filter (fun x => has_output outs x) ids
  | None => ids
  end.

(** [set(chain.from_iterable([input_map[x] for x in relevant_ids]))]; the
    subscript raises [KeyError] for an id that the input map lacks. *)
Definition gather_lfns (input_map : gmap string (list string))
    (ids : gset string) : option (gset string) :=
  (fun ls => list_to_set (concat ls)) <$>
    mapM (fun x => input_map !! x) (elements ids).

(** [check_job_outputs]: the outcome and the content of [collector_set]
    when the call ends. *)
Definition check_job_outputs (collector_set : gset string)
    (input_map : gmap string (list string))
    (job_details : gmap string job_info)
    (state : string) (job_outputs : option (gset string))
  : outcome * gset string :=
  let ids := relevant_ids job_details state job_outputs in
  if decide (state = "failed") then
    match job_outputs with
    | None => (Raised TypeError, collector_set)
    | Some outs =>
        (Returned, collector_set ∪ filter (fun x => from_ids ids x) outs)
    end
  else if decide (state = "finished") then
    match gather_lfns input_map ids with
    | None => (Raised KeyError, collector_set)
    | Some lfns =>
        let overlap := collector_set ∩ lfns in
        if decide (size overlap ≠ 0%nat) then (Raised ValueError, collector_set)
        else (Returned, collector_set ∪ lfns)
    end
  else (Returned, collector_set).

(** ** Paths: [os.path] on a POSIX system *)

Module PosixPath.

(** [os.path.join(a, b)] *)
Definition join (a b : string) : string :=
  if PyStr.startswith b "/" then b
  else if String.eqb a "" || PyStr.endswith a "/" then a +:+ b
  else a +:+ "/" +:+ b.

(** [os.path.basename(p)]: what follows the last slash. *)
Definition basename (p : string) : string :=
  List.last (PyStr.split "/" p) "".

(** One step of the component loop of [normpath]; [new_comps] is kept with
    its last element first. *)
Definition norm_step (initial_slashes : nat) (new_comps : list string)
    (comp : string) : list string :=
  if String.eqb comp "" || String.eqb comp "." then new_comps
  else if negb (String.eqb comp "..")
          || (Nat.eqb initial_slashes 0 && bool_decide (new_comps = []))
          || match new_comps with
             | top :: _ => String.eqb top ".."
             | [] => false
             end
       then comp :: new_comps
       else List.tl new_comps.

(** [os.path.normpath(path)] *)
Definition normpath (path : string) : string :=
  if String.eqb path "" then "."
  else
    let initial_slashes :=
      if PyStr.startswith path "/" then
        if PyStr.startswith path "//" && negb (PyStr.startswith path "///")
        then 2%nat else 1%nat
      else 0%nat in
    let comps :=
      List.rev (fold_left (norm_step initial_slashes) (PyStr.split "/" path) []) in
    let joined := PyStr.join "/" comps in
    let res := (match initial_slashes with
                | O => ""
                | S O => "/"
                | _ => "//"
                end) +:+ joined in
    if String.eqb res "" then "." else res.

(** [os.path.abspath(path)], with [cwd] the value of [os.getcwd()]. *)
Definition abspath (cwd path : string) : string :=
  normpath (if PyStr.startswith path "/" then path else join cwd path).

End PosixPath.

(** ** The files read and the services called *)

(** The content of a status file, as far as the script reads it. *)
Record status : Type := {
  project_dir : option string;
  details : option (gmap string job_info);
  task_name : option string;
}.

(** One record of [api.listFiles(dataset=..., detail=1)]. *)
Record dbs_file : Type := {
  is_file_valid : bool;
  logical_file_name : string;
}.

(** What the script finds outside itself: the module-level settings, the
    local file system, the sample configuration, the catalogue and the
    storage element.  A file that exists is taken to hold JSON of the shape
    documented for it, and [IPython] is taken to be installed. *)
Record world : Type := {
  verbosity : Z;
  (** whether [import gfal2] succeeded *)
  gfal2 : bool;
  (** [os.getcwd()] *)
  getcwd : string;
  (** [os.path.exists] *)
  path_exists : string -> bool;
  (** [json.load] of a job input file *)
  load_input_map : string -> gmap string (list string);
  (** [json.load] of a status file *)
  load_status : string -> status;
  (** whether [gfal2.creat_context()] returns a context; it raises
      otherwise *)
  creat_context : bool;
  (** [ctx.listdir]; [None] when the call raises *)
  listdir : string -> option (list string);
  (** [yaml.load] of the sample configuration *)
  sample_dict : gmap string (gmap string string);
  (** the DBS client, [None] when [dbs] could not be imported *)
  api : option (option string -> list dbs_file);
  (** [get_das_information(das_key=...)]: the [num_file] answer of
      [dasgoclient], [-1] when there is none *)
  das_num_file : option string -> Z;
}.

(** What the script does that can be observed from outside. *)
Inductive event : Type :=
  | EvExists (path : string)         (** [os.path.exists(path)] *)
  | EvRemote (wlcg_path : string)    (** [load_remote_output(wlcg_path)] *)
  | EvListdir (wlcg_path : string)   (** [ctx.listdir(wlcg_path)] *)
  | EvPrint (msg : string)           (** [print(msg)] *)
  | EvEmbed                          (** [IPython.embed()] *)
  | EvDump (outfilename : string).   (** [json.dump] of a summary *)

#[global] Instance event_eq_dec : EqDecision event.
Proof. solve_decision. Defined.

(** The sets that [main] creates for one sample and that
    [check_crab_directory] updates in place, with the events so far. *)
Record acc : Type := {
  known_lfns : gset string;
  done_lfns : gset string;
  failed_job_outputs : gset string;
  trace : list event;
}.

(** ** Computations that update the sets and may raise *)

Inductive result (A : Type) : Type :=
  | Ok (a : A)
  | Err (e : exn).
Arguments Ok {A} a.
Arguments Err {A} e.

Definition M (A : Type) : Type := acc -> result A * acc.

Definition ret {A} (a : A) : M A := fun s => (Ok a, s).

Definition raise {A} (e : exn) : M A := fun s => (Err e, s).

Definition bind {A B} (m : M A) (k : A -> M B) : M B :=
  fun s =>
    match m s with
    | (Ok a, s') => k a s'
    | (Err e, s') => (Err e, s')
    end.

Notation "'do' x <- m ; k" := (bind m (fun x => k))
  (at level 10, x name, m at level 100, k at level 200).
Notation "m ;; k" := (bind m (fun _ => k))
  (at level 100, k at level 200, right associativity).

Definition emit (e : event) : M unit :=
  fun s => (Ok tt, {| known_lfns := known_lfns s; done_lfns := done_lfns s;
                      failed_job_outputs := failed_job_outputs s;
                      trace := (trace s ++ [e])%list |}).

Definition get_known : M (gset string) := fun s => (Ok (known_lfns s), s).

Definition set_known (k : gset string) : M unit :=
  fun s => (Ok tt, {| known_lfns := k; done_lfns := done_lfns s;
                      failed_job_outputs := failed_job_outputs s;
                      trace := trace s |}).

Definition when (b : bool) (m : M unit) : M unit := if b then m else ret tt.

Fixpoint for_each {A} (l : list A) (body : A -> M unit) : M unit :=
  match l with
  | [] => ret tt
  | x :: l' => body x ;; for_each l' body
  end.

(** ** Division in double precision *)

(** [max_jobid] is a numpy [int64], so that [max_jobid/1000] is the
    division of two doubles, and [int] truncates the quotient towards
    zero. *)
Module PyFloat.

(** The double nearest to an integer, ties to even. *)
Definition of_int (m : Z) : SpecFloat.spec_float :=
  SpecFloat.binary_normalize 53 1024 m 0 false.

(** [int(x)] on a finite double. *)
Definition to_int (x : SpecFloat.spec_float) : Z :=
  match x with
  | SpecFloat.S754_finite sign m e =>
      let a := if 0 <=? e then Z.pos m * 2 ^ e else Z.pos m / 2 ^ (- e) in
      if sign then - a else a
  | _ => 0
  end.

(** [float(m)/float(1000)], rounded to the nearest double. *)
Definition div_1000 (m : Z) : SpecFloat.spec_float :=
  SpecFloat.SFdiv 53 1024 (of_int m) (of_int 1000).

(** [int(m/1000)].  An integer below [2^53] in absolute value is a double,
    and the double nearest to its quotient by 1000 lies on the same side of
    every integer as the quotient, so that [int] gives the integer quotient
    truncated towards zero; from [2^53] on the quotient is computed on the
    doubles. *)
Definition int_div_1000 (m : Z) : Z :=
  if Z.abs m <? 2 ^ 53 then Z.quot m 1000 else to_int (div_1000 m).

End PyFloat.

(** ** The functions of the script *)

(** The name of a crab base directory, lines 379 to 381. *)
Definition crab_dirname_of (sample_name suffix : string) : string :=
  let suffix :=
    if negb (String.eqb suffix "") && negb (PyStr.startswith suffix "_")
    then "_" +:+ suffix else suffix in
  "crab_" +:+ sample_name +:+ suffix.

(** Its path, line 382. *)
Definition crab_dir_of (sample_dir sample_name suffix : string) : string :=
  PosixPath.join sample_dir (crab_dirname_of sample_name suffix).

Section Script.

(** The builtin [int] on the keys of [details]; [None] when it raises
    [ValueError]. *)
Variable py_int : string -> option Z.

Variable w : world.

Definition verbose : bool := 1 <=? verbosity w.

(** [os.path.exists(path)], recorded. *)
Definition exists_ (path : string) : M bool :=
  emit (EvExists path) ;; ret (path_exists w path).

(** [IPython.embed()]: the interactive shell is taken to leave the sets as
    they are. *)
Definition embed : M unit := emit EvEmbed.

(** The body of the [try] of [load_remote_output]: the file list, [None]
    when [creat_context] or [listdir] raises. *)
Definition try_listdir (wlcg_path : string) : M (option (list string)) :=
  if creat_context w then
    emit (EvListdir wlcg_path) ;; ret (listdir w wlcg_path)
  else ret None.

(** [load_remote_output] *)
Definition load_remote_output (wlcg_path : string) : M (list string) :=
  emit (EvRemote wlcg_path) ;;
  if negb (gfal2 w) then
    emit (EvPrint "gfal2 was not imported, skipping this part") ;; ret []
  else
    do filelist <- try_listdir wlcg_path;
    match filelist with
    | Some filelist => ret (map (PosixPath.join wlcg_path) filelist)
    | None =>
        when verbose
          (emit (EvPrint ("unable to load files from " +:+ wlcg_path +:+
                          ", skipping")) ;;
           embed) ;;
        ret []
    end.

(** [get_job_inputs] *)
Definition get_job_inputs (crab_dir job_input_file : string)
  : M (option (gmap string (list string))) :=
  let path := PosixPath.join crab_dir job_input_file in
  do ex <- exists_ path;
  if negb ex then
    emit (EvPrint ("Could not load input mapping from file '" +:+ path +:+ "'")) ;;
    ret None
  else ret (Some (load_input_map w path)).

(** [get_status] *)
Definition get_status (sample_dir status_file crab_dir : string) : M status :=
  let status_path := PosixPath.join sample_dir (status_file +:+ ".json") in
  let backup_status_path := PosixPath.join sample_dir "status.json" in
  do ex <- exists_ status_path;
  if ex then ret (load_status w status_path)
  else
    do exb <- exists_ backup_status_path;
    if exb then ret (load_status w backup_status_path)
    else raise NotImplementedError.

(** [check_status] *)
Definition check_status (st : status) (crab_dir : string) : outcome :=
  let status_project_dir := project_dir st in
  let abs_crab_dir := PosixPath.abspath (getcwd w) crab_dir in
  match status_project_dir with
  | None => Raised ValueError
  | Some d =>
      if String.eqb d "" || negb (String.eqb d abs_crab_dir)
      then Raised ValueError
      else Returned
  end.

(** [load_das_key] *)
Definition load_das_key (sample_name : string) : M (option string) :=
  let sample_info := default ∅ (sample_dict w !! sample_name) in
  if decide (size sample_info = 0%nat) then
    when verbose
      (emit (EvPrint ("WARNING: Unable to load information for sample '" +:+
                      sample_name +:+ "'"))) ;;
    ret None
  else ret (sample_info !! "miniAOD").

(** [get_campaign_name]: a key that is no string is [None] here; the
    subscript [[1]] raises [IndexError] on a key without a slash. *)
Definition get_campaign_name (das_key : option string) : M string :=
  match das_key with
  | None =>
      when verbose
        (emit (EvPrint ("WARNING: Unable to load campaign name from das key " +:+
                        "of type '<class 'NoneType'>'"))) ;;
      ret ""
  | Some k =>
      match PyStr.split "/" k !! 1%nat with
      | Some c => ret c
      | None => raise IndexError
      end
  end.

(** [get_dbs_lfns] *)
Definition get_dbs_lfns (das_key : option string) : gset string :=
  match api w with
  | Some listFiles =>
      list_to_set
        (map logical_file_name
           (List.filter (fun x => is_file_valid x) (listFiles das_key)))
  | None => ∅
  end.

(** Lift the outcome of a call that works on one of the three sets. *)
Definition lift_outcome (o : outcome) : M unit :=
  match o with
  | Returned => ret tt
  | Raised e => raise e
  end.

Definition lift_result {A} (r : result A) : M A :=
  match r with
  | Ok a => ret a
  | Err e => raise e
  end.

(** [check_job_outputs] with [collector_set=failed_job_outputs]. *)
Definition classify_failed (input_map : gmap string (list string))
    (job_details : gmap string job_info) (job_outputs : gset string) : M unit :=
  fun s =>
    let '(o, c) := check_job_outputs (failed_job_outputs s) input_map
                     job_details "failed" (Some job_outputs) in
    lift_outcome o {| known_lfns := known_lfns s; done_lfns := done_lfns s;
                      failed_job_outputs := c; trace := trace s |}.

(** [check_job_outputs] with [collector_set=done_lfns]. *)
Definition classify_finished (input_map : gmap string (list string))
    (job_details : gmap string job_info) (job_outputs : gset string) : M unit :=
  fun s =>
    let '(o, c) := check_job_outputs (done_lfns s) input_map
                     job_details "finished" (Some job_outputs) in
    lift_outcome o {| known_lfns := known_lfns s; done_lfns := c;
                      failed_job_outputs := failed_job_outputs s;
                      trace := trace s |}.

(** [np.max([int(x) for x in job_details.keys()])]: [ValueError] from [int]
    on a key that is no integer, and from [np.max] on an empty list. *)
Definition max_jobid (job_details : gmap string job_info) : result Z :=
  match mapM py_int (elements (dom job_details)) with
  | None => Err ValueError
  | Some [] => Err ValueError
  | Some (z :: zs) => Ok (fold_right Z.max z zs)
  end.

(** [range(int(max_jobid/1000)+1)]: the quotient is the one of
    [PyFloat.int_div_1000], in double precision. *)
Definition block_range (max_jobid : Z) : list nat :=
  seq 0 (Z.to_nat (PyFloat.int_div_1000 max_jobid + 1)).

(** The loop over the blocks: the union of what [load_remote_output] gives
    for each block directory. *)
Fixpoint load_blocks (this_wlcg_template : string) (blocks : list nat)
    (job_outputs : gset string) : M (gset string) :=
  match blocks with
  | [] => ret job_outputs
  | i :: rest =>
      do files <- load_remote_output
                    (PosixPath.join this_wlcg_template (PyStr.fmt_04d i));
      load_blocks this_wlcg_template rest (job_outputs ∪ list_to_set files)
  end.

(** Lines 462 to 475: the outputs found on the storage element for the
    jobs of one crab directory. *)
Definition load_job_outputs (this_wlcg_template : string)
    (job_details : gmap string job_info) : M (gset string) :=
  do max_id <- lift_result (max_jobid job_details);
  load_blocks this_wlcg_template (block_range max_id) ∅.

(** [set(chain.from_iterable(input_map.values()))] *)
Definition flat_lfns_of (input_map : gmap string (list string)) : gset string :=
  list_to_set (concat (map snd (map_to_list input_map))).

(** The sanity checks on the known LFNs, lines 400 to 428. *)
Definition update_known (crab_dir : string) (flat_lfns : gset string) : M unit :=
  do known <- get_known;
  when (bool_decide (size known = 0%nat)) (set_known (known ∪ flat_lfns)) ;;
  do known <- get_known;
  let unknown_lfns := flat_lfns ∖ known in
  if decide (size unknown_lfns ≠ 0%nat) then
    (if decide (verbosity w = 0) then ret tt else embed) ;;
    do known <- get_known;
    set_known (known ∪ flat_lfns)
  else ret tt.

(** [check_crab_directory] *)
Definition check_crab_directory (sample_dir sample_name suffix : string)
    (das_key : option string) (status_file : string)
    (wlcg_dir wlcg_prefix : string) (job_input_file : string) : M unit :=
  let crab_dirname := crab_dirname_of sample_name suffix in
  let crab_dir := crab_dir_of sample_dir sample_name suffix in
  do ex <- exists_ crab_dir;
  if negb ex then
    when verbose
      (emit (EvPrint ("Directory " +:+ crab_dir +:+
                      " does not exist, will stop looking here")))
  else
    do input_map <- get_job_inputs crab_dir job_input_file;
    match input_map with
    | None =>
        when verbose
          (emit (EvPrint ("WARNING: could not load input map for directory "
                          +:+ crab_dir)))
    | Some input_map =>
        if decide (size input_map = 0%nat) then
          when verbose
            (emit (EvPrint ("WARNING: could not load input map for directory "
                            +:+ crab_dir)))
        else
          update_known crab_dir (flat_lfns_of input_map) ;;
          do st <- get_status sample_dir status_file crab_dir;
          lift_outcome (check_status st crab_dir) ;;
          let job_details := default ∅ (details st) in
          do time_stamp <-
            match task_name st with
            | None => raise ValueError
            | Some t =>
                if String.eqb t "" then raise ValueError
                else ret (List.hd "" (PyStr.split ":" t))
            end;
          do campaign <- get_campaign_name das_key;
          let this_wlcg_template :=
            wlcg_prefix +:+ wlcg_dir +:+ "/" +:+ campaign +:+ "/" +:+
            crab_dirname +:+ "/" +:+ time_stamp in
          do job_outputs <- load_job_outputs this_wlcg_template job_details;
          classify_failed input_map job_details job_outputs ;;
          classify_finished input_map job_details job_outputs
    end.

(** *** The summary of one sample *)

(** [known_lfns.symmetric_difference(done_lfns)] *)
Definition symmetric_difference (a b : gset string) : gset string :=
  (a ∖ b) ∪ (b ∖ a).

(** The dictionary [sample_dict]; the four file lists are there only with
    [--dump-filelists]. *)
Record sample_dict_t : Type := {
  das_total : Z;
  total : Z;
  done_count : Z;
  outputs_from_failed_jobs : Z;
  missing : Z;
  total_lfns : option (gset string);
  done_lfns_list : option (gset string);
  missing_lfns : option (gset string);
  failed_outputs : option (gset string);
}.

(** The loop over [zip(suffices, status_files)]. *)
Definition cascade (sample_dir sample_name : string) (das_key : option string)
    (wlcg_dir wlcg_prefix : string) (attempts : list (string * string))
  : M unit :=
  for_each attempts (fun '(suffix, status_file) =>
    check_crab_directory sample_dir sample_name suffix das_key status_file
      wlcg_dir wlcg_prefix "job_input_files.json").

(** Lines 640 to 664, on the sets as the cascade left them. *)
Definition summarise (sample_dir : string) (n_total : Z)
    (dump_filelists : bool) : M sample_dict_t :=
  fun s =>
    let unprocessed_lfns := symmetric_difference (known_lfns s) (done_lfns s) in
    let dump (x : gset string) := if dump_filelists then Some x else None in
    let d := {| das_total := n_total;
                total := Z.of_nat (size (known_lfns s));
                done_count := Z.of_nat (size (done_lfns s));
                outputs_from_failed_jobs := Z.of_nat (size (failed_job_outputs s));
                missing := Z.of_nat (size unprocessed_lfns);
                total_lfns := dump (known_lfns s);
                done_lfns_list := dump (done_lfns s);
                missing_lfns := dump unprocessed_lfns;
                failed_outputs := dump (failed_job_outputs s) |} in
    (when verbose
       (when (bool_decide (size (failed_job_outputs s) ≠ 0%nat))
          (emit (EvPrint "WARNING: found job outputs that should not be there") ;;
           emit (EvPrint ("Sample: " +:+ sample_dir)) ;;
           for_each (elements (failed_job_outputs s)) (fun f => emit (EvPrint f))) ;;
        when (bool_decide (size unprocessed_lfns ≠ 0%nat))
          (emit (EvPrint ("WARNING: following LFNs for sample " +:+ sample_dir
                          +:+ " were not processed!")) ;;
           for_each (elements unprocessed_lfns) (fun f => emit (EvPrint f)))) ;;
     ret d) s.

(** The body of the loop of [main] for a sample directory that exists: the
    three sets are new for every sample. *)
Definition reconcile (sample_dir : string) (wlcg_dir wlcg_prefix : string)
    (attempts : list (string * string)) (dump_filelists : bool)
    (tr : list event) : result (string * sample_dict_t) * acc :=
  let sample_dir := PyStr.strip "/" sample_dir in
  let sample_name := PosixPath.basename sample_dir in
  (do das_key <- load_das_key sample_name;
   let known := get_dbs_lfns das_key in
   let n_total :=
     if decide (0 < size known)%nat then Z.of_nat (size known)
     else das_num_file w das_key in
   set_known known ;;
   cascade sample_dir sample_name das_key wlcg_dir wlcg_prefix attempts ;;
   do d <- summarise sample_dir n_total dump_filelists;
   ret (sample_name, d))
    {| known_lfns := ∅; done_lfns := ∅; failed_job_outputs := ∅;
       trace := tr |}.

(** *** The dictionary [meta_infos] *)

(** [d[k] = v] on a dictionary kept in insertion order. *)
Fixpoint dict_set {V} (k : string) (v : V) (d : list (string * V))
  : list (string * V) :=
  match d with
  | [] => [(k, v)]
  | (k', v') :: d' =>
      if String.eqb k' k then (k, v) :: d' else (k', v') :: dict_set k v d'
  end.

(** [d[k]] *)
Fixpoint dict_get {V} (k : string) (d : list (string * V)) : option V :=
  match d with
  | [] => None
  | (k', v) :: d' => if String.eqb k' k then Some v else dict_get k d'
  end.

(** The test of the final filter of [main]. *)
Definition needs_attention (d : sample_dict_t) : bool :=
  negb (missing d =? 0)
  || (negb (das_total d =? total d) && negb (das_total d =? -1)).

(** [samples_with_missing_lfns] *)
Definition samples_with_missing_lfns (meta_infos : list (string * sample_dict_t))
  : list string :=
  List.filter
    (fun x => match dict_get x meta_infos with
              | Some d => needs_attention d
              | None => false
              end)
    (map fst meta_infos).

(** The loop of [main] over the sample directories; an exception ends the
    run. *)
Fixpoint main_loop (sample_dirs : list string) (wlcg_dir wlcg_prefix : string)
    (attempts : list (string * string)) (dump_filelists : bool)
    (meta_infos : list (string * sample_dict_t)) (tr : list event)
  : result (list (string * sample_dict_t)) * list event :=
  match sample_dirs with
  | [] => (Ok meta_infos, tr)
  | sample_dir :: rest =>
      let tr := (tr ++ [EvExists sample_dir])%list in
      if negb (path_exists w sample_dir) then
        main_loop rest wlcg_dir wlcg_prefix attempts dump_filelists meta_infos
          (tr ++ [EvPrint ("Directory " +:+ sample_dir +:+
                           " does not exist, skipping!")])%list
      else
        match reconcile sample_dir wlcg_dir wlcg_prefix attempts
                dump_filelists tr with
        | (Ok (sample_name, d), s) =>
            main_loop rest wlcg_dir wlcg_prefix attempts dump_filelists
              (dict_set sample_name d meta_infos) (trace s)
        | (Err e, s) => (Err e, trace s)
        end
  end.

(** [main]: the summaries, the samples that need attention, and the
    events.  Of [build_meta_info_table] only the file it writes is
    recorded. *)
Definition main (sample_dirs : list string) (wlcg_dir wlcg_prefix : string)
    (suffices status_files : list string) (dump_filelists : bool)
  : result (list (string * sample_dict_t) * list string) * list event :=
  match main_loop sample_dirs wlcg_dir wlcg_prefix
          (combine suffices status_files) dump_filelists [] [] with
  | (Ok meta_infos, tr) =>
      let tr := (tr ++ [EvDump "crab_job_summary.json"])%list in
      let flagged := samples_with_missing_lfns meta_infos in
      if bool_decide (length flagged ≠ 0%nat) then
        (Ok (meta_infos, flagged),
         (tr ++ [EvPrint PyStr.two_newlines;
                 EvPrint "Samples with missing LFNS:";
                 EvDump "samples_with_missing_lfns.json"])%list)
      else (Ok (meta_infos, flagged), tr)
  | (Err e, tr) => (Err e, tr)
  end.

End Script.

(** ** Reading the events *)

(** The paths handed to [load_remote_output], in the order of the calls. *)
Definition remote_probes (tr : list event) : list string :=
  omap (fun e => match e with EvRemote p => Some p | _ => None end) tr.

(** The paths listed on the storage element, in the order of the calls. *)
Definition listdir_calls (tr : list event) : list string :=
  omap (fun e => match e with EvListdir p => Some p | _ => None end) tr.

(** The paths handed to [os.path.exists], in the order of the calls. *)
Definition exists_probes (tr : list event) : list string :=
  omap (fun e => match e with EvExists p => Some p | _ => None end) tr.

(** The lines printed. *)
Definition printed (tr : list event) : list string :=
  omap (fun e => match e with EvPrint p => Some p | _ => None end) tr.

(** ** Assertions on the sets *)

(** [Q] holds when [m] ends, returning or raising, if [P] held when it
    started. *)
Definition triple {A} (P : acc -> Prop) (m : M A) (Q : acc -> Prop) : Prop :=
  ∀ s, P s → Q (m s).2.

Definition with_trace (s : acc) (t : list event) : acc :=
  {| known_lfns := known_lfns s; done_lfns := done_lfns s;
     failed_job_outputs := failed_job_outputs s; trace := t |}.

(** A computation that touches none of the three sets. *)
Definition only_emits {A} (m : M A) : Prop :=
  ∀ s, ∃ t, (m s).2 = with_trace s (trace s ++ t)%list.

(** An assertion that more events do not break. *)
Definition append_stable (P : acc -> Prop) : Prop :=
  ∀ s t, P s → P (with_trace s (trace s ++ t)%list).

(** The three sets have grown and the events have been extended, first by
    [t0]. *)
Definition extends_by (t0 : list event) (s0 s : acc) : Prop :=
  known_lfns s0 ⊆ known_lfns s ∧
  done_lfns s0 ⊆ done_lfns s ∧
  failed_job_outputs s0 ⊆ failed_job_outputs s ∧
  ∃ t, trace s = (trace s0 ++ t0 ++ t)%list.

Definition extends (s0 s : acc) : Prop := extends_by [] s0 s.

(** A computation that returns [a] and touches none of the three sets. *)
Definition emits_ok {A} (m : M A) (a : A) : Prop :=
  ∀ s, ∃ t, m s = (Ok a, with_trace s (trace s ++ t)%list).

(** The invariant of the cascade, and what holds between the sanity checks
    and the classification. *)
Definition done_known (s : acc) : Prop := done_lfns s ⊆ known_lfns s.

Definition inputs_known (flat_lfns : gset string) (s : acc) : Prop :=
  done_lfns s ⊆ known_lfns s ∧ flat_lfns ⊆ known_lfns s.

(** The events of [check_crab_directory] on a directory that is not
    there. *)
Definition skip_events (w : world) (crab_dir : string) : list event :=
  EvExists crab_dir ::
  (if verbose w
   then [EvPrint ("Directory " +:+ crab_dir +:+
                  " does not exist, will stop looking here")]
   else []).

(** ** Before the classification *)

(** Events among which there is no call of [load_remote_output] and no
    listing. *)
Definition quiet (t : list event) : Prop :=
  remote_probes t = [] ∧ listdir_calls t = [].

(** The state [s] with the known LFNs [K] and the further events [t]. *)
Definition grown_to (s : acc) (K : gset string) (t : list event) : acc :=
  {| known_lfns := K; done_lfns := done_lfns s;
     failed_job_outputs := failed_job_outputs s;
     trace := (trace s ++ t)%list |}.

(** A computation that ends with [r], whatever the state, and adds only
    quiet events. *)
Definition quiet_run {A} (m : M A) (r : result A) : Prop :=
  ∀ s, ∃ t, quiet t ∧ m s = (r, grown_to s (known_lfns s) t).

(** The path on the storage element under which the outputs of a crab
    directory lie, lines 451 to 457. *)
Definition wlcg_path_of (wlcg_prefix wlcg_dir campaign crab_dirname
    time_stamp : string) : string :=
  wlcg_prefix +:+ wlcg_dir +:+ "/" +:+ campaign +:+ "/" +:+
  crab_dirname +:+ "/" +:+ time_stamp.

(** ** What an attempt reads *)

(** The key that [load_das_key] returns: the entry ['miniAOD'] of the
    sample in the configuration. *)
Definition das_key_of (w : world) (sample_name : string) : option string :=
  default ∅ (sample_dict w !! sample_name) !! "miniAOD".

(** What [load_das_key] prints. *)
Definition das_key_events (w : world) (sample_name : string) : list event :=
  if bool_decide (size (default ∅ (sample_dict w !! sample_name)) = 0%nat)
     && verbose w
  then [EvPrint ("WARNING: Unable to load information for sample '" +:+
                 sample_name +:+ "'")]
  else [].

(** How [get_campaign_name] ends. *)
Definition campaign_of (das_key : option string) : result string :=
  match das_key with
  | None => Ok ""
  | Some k =>
      match PyStr.split "/" k !! 1%nat with
      | Some c => Ok c
      | None => Err IndexError
      end
  end.

(** How [get_status] ends. *)
Definition status_of (w : world) (sample_dir status_file : string)
  : result status :=
  let status_path := PosixPath.join sample_dir (status_file +:+ ".json") in
  let backup_status_path := PosixPath.join sample_dir "status.json" in
  if path_exists w status_path then Ok (load_status w status_path)
  else if path_exists w backup_status_path
       then Ok (load_status w backup_status_path)
       else Err NotImplementedError.

(** What [load_remote_output] returns for a path. *)
Definition listed (w : world) (wlcg_path : string) : list string :=
  if gfal2 w && creat_context w then
    match listdir w wlcg_path with
    | Some filelist => map (PosixPath.join wlcg_path) filelist
    | None => []
    end
  else [].

(** The outputs that the loop over the blocks finds for the largest job id
    [max_jobid]. *)
Definition remote_files (w : world) (this_wlcg_template : string)
    (max_jobid : Z) : gset string :=
  list_to_set
    (flat_map
       (fun i => listed w (PosixPath.join this_wlcg_template (PyStr.fmt_04d i)))
       (block_range max_jobid)).

(** What an attempt classifies: its input map, the job details of its
    status and the outputs found for it; [None] when the attempt ends before
    it classifies, be it by [return] or by an exception. *)
Definition attempt_plan (py_int : string -> option Z) (w : world)
    (sample_dir sample_name suffix : string) (das_key : option string)
    (status_file wlcg_dir wlcg_prefix job_input_file : string)
  : option (gmap string (list string) * gmap string job_info * gset string) :=
  let crab_dir := crab_dir_of sample_dir sample_name suffix in
  let input_path := PosixPath.join crab_dir job_input_file in
  let input_map := load_input_map w input_path in
  if negb (path_exists w crab_dir) then None
  else if negb (path_exists w input_path) then None
  else if decide (size input_map = 0%nat) then None
  else
    match status_of w sample_dir status_file with
    | Err _ => None
    | Ok st =>
        let job_details := default ∅ (details st) in
        match check_status w st crab_dir, task_name st,
              campaign_of das_key, max_jobid py_int job_details with
        | Returned, Some t, Ok campaign, Ok max_id =>
            if String.eqb t "" then None
            else
              Some (input_map, job_details,
                    remote_files w
                      (wlcg_path_of wlcg_prefix wlcg_dir campaign
                         (crab_dirname_of sample_name suffix)
                         (List.hd "" (PyStr.split ":" t)))
                      max_id)
        | _, _, _, _ => None
        end
    end.

(** The plan of an attempt of the cascade of a sample. *)
Definition cascade_plan (py_int : string -> option Z) (w : world)
    (sample_dir sample_name : string) (das_key : option string)
    (wlcg_dir wlcg_prefix : string) (attempt : string * string)
  : option (gmap string (list string) * gmap string job_info * gset string) :=
  attempt_plan py_int w sample_dir sample_name attempt.1 das_key attempt.2
    wlcg_dir wlcg_prefix "job_input_files.json".

(** The input LFNs of the finished jobs that an attempt selects, and the
    outputs that its failed pass collects. *)
Definition attempt_lfns
    (plan : option (gmap string (list string) * gmap string job_info *
                    gset string)) : gset string :=
  match plan with
  | Some (input_map, job_details, job_outputs) =>
      list_to_set
        (concat
           (omap (fun x => input_map !! x)
              (elements
                 (relevant_ids job_details "finished" (Some job_outputs)))))
  | None => ∅
  end.

Definition attempt_failed_outputs
    (plan : option (gmap string (list string) * gmap string job_info *
                    gset string)) : gset string :=
  match plan with
  | Some (input_map, job_details, job_outputs) =>
      filter (fun x => from_ids (relevant_ids job_details "failed"
                                   (Some job_outputs)) x) job_outputs
  | None => ∅
  end.

(** ** The total of the catalogue *)

(** One record of the answer of [dasgoclient], as far as the script reads
    it: the list under ['dataset'], when the record has this key, each
    entry with the numbers it carries. *)
Record das_record : Type := {
  dataset : option (list (gmap string Z));
}.

Definition allowed_modes : list string :=
  ["file_size"; "num_event"; "num_file"].

(** The values of [relevant_info] in the entries that carry it. *)
Definition das_values (das_infos : list das_record) (relevant_info : string)
  : list Z :=
  flat_map
    (fun x =>
       match dataset x with
       | Some ys =>
           flat_map (fun y => match y !! relevant_info with
                              | Some v => [v]
                              | None => []
                              end) ys
       | None => []
       end)
    das_infos.

(** Some entry of the answer carries the value [v] for [relevant_info]. *)
Definition das_carried (das_infos : list das_record) (relevant_info : string)
    (v : Z) : Prop :=
  ∃ x ys y, x ∈ das_infos ∧ dataset x = Some ys ∧ y ∈ ys ∧
            y !! relevant_info = Some v.

(** [get_das_information], from the output of the query on: [das_infos] is
    what [json.loads] makes of the output, [None] when it raises. *)
Definition get_das_information (das_infos : option (list das_record))
    (relevant_info : string) (default : Z) : result Z :=
  if negb (bool_decide (relevant_info ∈ allowed_modes)) then Err ValueError
  else
    match das_infos with
    | None => Ok default
    | Some das_infos =>
        let relevant_values : list Z :=
          elements (list_to_set (C:=gset Z)
                      (das_values das_infos relevant_info)) in
        match relevant_values with
        | [v] => Ok v
        | _ => Ok default
        end
    end.

(** ** Characters in strings *)

(** Whether the character [c] occurs in [s]: [c in s]. *)
Fixpoint has_char (c : ascii) (s : string) : bool :=
  match s with
  | EmptyString => false
  | String d s' => Ascii.eqb d c || has_char c s'
  end.

(** What follows the last [c] in [s]; all of [s] when there is none. *)
Fixpoint after_last (c : ascii) (s : string) : string :=
  match s with
  | EmptyString => EmptyString
  | String d s' =>
      if has_char c s' then after_last c s'
      else if Ascii.eqb d c then s' else String d s'
  end.

(** ** A concrete run *)

Module Scenario.

(** Decimal integers with an optional minus sign, on which the builtin
    [int] gives the number read. *)
Fixpoint parse_digits (s : string) (acc : Z) : option Z :=
  match s with
  | EmptyString => Some acc
  | String c s' =>
      let n := nat_of_ascii c in
      if (48 <=? n)%nat && (n <=? 57)%nat
      then parse_digits s' (10 * acc + Z.of_nat (n - 48))
      else None
  end.

Definition parse_int (s : string) : option Z :=
  match s with
  | EmptyString => None
  | String "-" (String c s') => Z.opp <$> parse_digits (String c s') 0
  | _ => parse_digits s 0
  end.

Definition finished : job_info := {| State := "finished" |}.
Definition failed : job_info := {| State := "failed" |}.

(** The sample of the end-to-end scenario: three jobs on the LFNs A, B and
    C; the storage element holds the outputs of jobs 1 and 2. *)
Definition im1 : gmap string (list string) :=
  {[ "1" := ["A"]; "2" := ["B"]; "3" := ["C"] ]}.

Definition jd1 : gmap string job_info :=
  {[ "1" := finished; "2" := failed; "3" := finished ]}.

Definition st1 : status :=
  {| project_dir := Some "/work/S/crab_S";
     details := Some jd1;
     task_name := Some "230101_120000:user_crab_S" |}.

(** A recovery attempt that processes C again, this time with an output. *)
Definition im2 : gmap string (list string) := {[ "1" := ["C"] ]}.
Definition jd2 : gmap string job_info := {[ "1" := finished ]}.
Definition st2 : status :=
  {| project_dir := Some "/work/S/crab_S_recovery_2";
     details := Some jd2;
     task_name := Some "230102_120000:user_crab_S_recovery_2" |}.

(** The files found on the storage element for the first attempt. *)
Definition outs1 : gset string :=
  {[ "srm:/pnfs//crab_S/230101_120000/0000/nano_1.root";
     "srm:/pnfs//crab_S/230101_120000/0000/nano_2.root" ]}.

(** An attempt all of whose jobs failed. *)
Definition jd_failed : gmap string job_info :=
  {[ "1" := failed; "2" := failed; "3" := failed ]}.

Definition one_of (l : list string) (p : string) : bool :=
  existsb (String.eqb p) l.

Definition world1 (v : Z) (present : list string) : world :=
  {| verbosity := v;
     gfal2 := true;
     getcwd := "/work";
     path_exists := one_of present;
     load_input_map := fun p =>
       if String.eqb p "S/crab_S/job_input_files.json" then im1
       else if String.eqb p "S/crab_S_recovery_2/job_input_files.json" then im2
       else ∅;
     load_status := fun p =>
       if String.eqb p "S/status_0.json" then st1 else st2;
     creat_context := true;
     listdir := fun p =>
       if String.eqb p "srm:/pnfs//crab_S/230101_120000/0000"
       then Some ["nano_1.root"; "nano_2.root"]
       else if String.eqb p "srm:/pnfs//crab_S_recovery_2/230102_120000/0000"
       then Some ["nano_1.root"]
       else None;
     sample_dict := ∅;
     api := None;
     das_num_file := fun _ => -1 |}.

(** Only the first attempt is on disk. *)
Definition files1 : list string :=
  ["S"; "S/crab_S"; "S/crab_S/job_input_files.json"; "S/status_0.json"].

(** The first attempt and the second recovery are on disk, the first
    recovery is not. *)
Definition files2 : list string :=
  files1 ++ ["S/crab_S_recovery_2";
             "S/crab_S_recovery_2/job_input_files.json"; "S/status.json"].

(** The default values of [--suffices] and [--status-files], zipped. *)
Definition attempts : list (string * string) :=
  [("", "status_0"); ("recovery_1", "status_1"); ("recovery_2", "status")].

Definition acc0 : acc :=
  {| known_lfns := ∅; done_lfns := ∅; failed_job_outputs := ∅; trace := [] |}.

End Scenario.


(** ** A run without [gfal2] *)

Module Scenario2.

(** The world of the first scenario on a machine where [gfal2] could not be
    imported. *)
Definition world_without_gfal2 : world :=
  let w1 := Scenario.world1 0 Scenario.files1 in
  {| verbosity := verbosity w1;
     gfal2 := false;
     getcwd := getcwd w1;
     path_exists := path_exists w1;
     load_input_map := load_input_map w1;
     load_status := load_status w1;
     creat_context := creat_context w1;
     listdir := listdir w1;
     sample_dict := sample_dict w1;
     api := api w1;
     das_num_file := das_num_file w1 |}.

(** The world of the recovery scenario with a catalogue that knows A, B
    and C, and a file D that is not valid. *)
Definition world_with_catalogue : world :=
  let w2 := Scenario.world1 0 Scenario.files2 in
  {| verbosity := verbosity w2;
     gfal2 := gfal2 w2;
     getcwd := getcwd w2;
     path_exists := path_exists w2;
     load_input_map := load_input_map w2;
     load_status := load_status w2;
     creat_context := creat_context w2;
     listdir := listdir w2;
     sample_dict := sample_dict w2;
     api := Some (fun _ =>
       [ {| is_file_valid := true; logical_file_name := "A" |};
         {| is_file_valid := true; logical_file_name := "B" |};
         {| is_file_valid := false; logical_file_name := "D" |};
         {| is_file_valid := true; logical_file_name := "C" |} ]);
     das_num_file := das_num_file w2 |}.

(** The first scenario with the input file of the attempt missing. *)
Definition files_without_inputs : list string :=
  ["S"; "S/crab_S"; "S/status_0.json"].

End Scenario2.

(** ** The classifier [check_job_outputs] *)

Section Classifier.

Implicit Types (c outs ids lfns : gset string) (jo : option (gset string)).
Implicit Types (im : gmap string (list string)) (jd : gmap string job_info).

Lemma elem_of_ids_in_state jd state x :
  x ∈ ids_in_state jd state ↔ ∃ info, jd !! x = Some info ∧ State info = state.
Proof.
  unfold ids_in_state. rewrite elem_of_dom. unfold is_Some.
  setoid_rewrite map_lookup_filter_Some. simpl. naive_solver.
Qed.

Lemma has_output_true outs x :
  has_output outs x = true ↔
  ∃ p, p ∈ outs ∧ PyStr.endswith p (nano_name x) = true.
Proof.
  unfold has_output. rewrite existsb_exists.
  setoid_rewrite <- list_elem_of_In. setoid_rewrite elem_of_elements. done.
Qed.

Lemma from_ids_true ids p :
  from_ids ids p = true ↔
  ∃ x, x ∈ ids ∧ PyStr.endswith p (nano_name x) = true.
Proof.
  unfold from_ids. rewrite existsb_exists.
  setoid_rewrite <- list_elem_of_In. setoid_rewrite elem_of_elements. done.
Qed.

Lemma size_zero_empty c : size c = 0%nat ↔ c = ∅.
Proof. rewrite size_empty_iff. by unfold_leibniz. Qed.

Lemma elem_of_relevant_ids_some jd state outs x :
  x ∈ relevant_ids jd state (Some outs) ↔
  x ∈ ids_in_state jd state ∧ (outs = ∅ ∨ has_output outs x = true).
Proof.
  unfold relevant_ids. case_decide as Hsz.
  - apply size_zero_empty in Hsz. naive_solver.
  - rewrite elem_of_filter, Is_true_true. split; [naive_solver|].
    intros [Hx [->|Ho]]; [|done]. by rewrite size_empty in Hsz.
Qed.

Lemma has_output_empty x : has_output ∅ x = false.
Proof. unfold has_output. by rewrite elements_empty. Qed.

Lemma elem_of_concat {A} (x : A) (ls : list (list A)) :
  x ∈ concat ls ↔ ∃ l, l ∈ ls ∧ x ∈ l.
Proof.
  rewrite list_elem_of_In, in_concat.
  setoid_rewrite list_elem_of_In. done.
Qed.

(** The gathered LFNs: defined when every selected job has an entry in the
    input map, and then the union of the entries. *)
Lemma gather_lfns_is_Some im ids :
  is_Some (gather_lfns im ids) ↔ ∀ x, x ∈ ids → is_Some (im !! x).
Proof.
  unfold gather_lfns. rewrite fmap_is_Some, mapM_is_Some, Forall_forall.
  setoid_rewrite elem_of_elements. done.
Qed.

Lemma elem_of_gather_lfns im ids lfns l :
  gather_lfns im ids = Some lfns →
  l ∈ lfns ↔ ∃ x ls, x ∈ ids ∧ im !! x = Some ls ∧ l ∈ ls.
Proof.
  unfold gather_lfns. intros H.
  apply fmap_Some in H as (lss & HM & ->).
  apply mapM_Some in HM.
  rewrite elem_of_list_to_set, elem_of_concat. split.
  - intros (ls & Hl & Hls).
    destruct (proj1 (list_elem_of_lookup _ _) Hl) as [i Hi].
    destruct (Forall2_lookup_r _ _ _ _ _ HM Hi) as (x & Hx & Hxl).
    exists x, ls. split_and!; [|done..].
    apply elem_of_elements, list_elem_of_lookup. eauto.
  - intros (x & ls & Hx & Hxl & Hl).
    apply elem_of_elements, list_elem_of_lookup in Hx as [i Hi].
    destruct (Forall2_lookup_l _ _ _ _ _ HM Hi) as (ls' & Hls' & Heq).
    assert (ls' = ls) as -> by congruence.
    exists ls. split; [|done].
    apply list_elem_of_lookup. by exists i.
Qed.

Lemma gather_lfns_spec im ids lfns :
  (∀ x, x ∈ ids → is_Some (im !! x)) →
  (∀ l, l ∈ lfns ↔ ∃ x ls, x ∈ ids ∧ im !! x = Some ls ∧ l ∈ ls) →
  gather_lfns im ids = Some lfns.
Proof.
  intros Hdom Hl. apply gather_lfns_is_Some in Hdom as [lfns' Hg].
  rewrite Hg. f_equal. apply set_eq. intros l.
  rewrite (elem_of_gather_lfns _ _ _ _ Hg). symmetry. apply Hl.
Qed.

Lemma check_finished_unfold c im jd jo lfns :
  gather_lfns im (relevant_ids jd "finished" jo) = Some lfns →
  check_job_outputs c im jd "finished" jo =
    if decide (c ∩ lfns = ∅) then (Returned, c ∪ lfns)
    else (Raised ValueError, c).
Proof.
  intros Hg. unfold check_job_outputs.
  destruct (decide ("finished" = "failed")) as [?|_]; [done|].
  destruct (decide ("finished" = "finished")) as [_|?]; [|done].
  rewrite Hg. simpl.
  destruct (decide (size (c ∩ lfns) ≠ 0%nat)) as [Hn|Hn];
    destruct (decide (c ∩ lfns = ∅)) as [He|He]; try done.
  - by rewrite He, size_empty in Hn.
  - destruct He. apply size_zero_empty. lia.
Qed.

(** C10.  Called with [state = "failed"] and [job_outputs] left at its
    default [None], the classifier raises [TypeError] whatever the other
    arguments are, and the collector is left as it was; it does not treat
    the missing set as empty, for which the call returns with the collector
    unchanged. *)
Theorem check_job_outputs_failed_none c im jd :
  check_job_outputs c im jd "failed" None = (Raised TypeError, c) ∧
  check_job_outputs c im jd "failed" (Some ∅) = (Returned, c).
Proof.
  unfold check_job_outputs.
  destruct (decide ("failed" = "failed")) as [_|?]; [|done].
  split; [done|]. f_equal. set_solver.
Qed.

(** C1, as amended.  With [state = "finished"], when every selected job has
    an entry in the input map and [lfns] is the union of those entries: if
    [lfns] meets the collector the call raises [ValueError] and leaves the
    collector unchanged; otherwise it returns with [lfns] added.  A second
    call on the same arguments then raises when [lfns] is not empty, and
    returns with the collector unchanged when [lfns] is empty. *)
Theorem check_job_outputs_finished c im jd jo lfns :
  (∀ x, x ∈ relevant_ids jd "finished" jo → is_Some (im !! x)) →
  (∀ l, l ∈ lfns ↔
        ∃ x ls, x ∈ relevant_ids jd "finished" jo ∧ im !! x = Some ls ∧ l ∈ ls) →
  (c ∩ lfns ≠ ∅ →
     check_job_outputs c im jd "finished" jo = (Raised ValueError, c)) ∧
  (c ∩ lfns = ∅ →
     check_job_outputs c im jd "finished" jo = (Returned, c ∪ lfns) ∧
     (lfns ≠ ∅ →
        check_job_outputs (c ∪ lfns) im jd "finished" jo
        = (Raised ValueError, c ∪ lfns)) ∧
     (lfns = ∅ →
        check_job_outputs (c ∪ lfns) im jd "finished" jo
        = (Returned, c ∪ lfns))).
Proof.
  intros Hdom Hl.
  pose proof (gather_lfns_spec _ _ _ Hdom Hl) as Hg.
  split; [|split; [|split]].
  - intros Hne. rewrite (check_finished_unfold _ _ _ _ _ Hg).
    by destruct (decide (c ∩ lfns = ∅)).
  - rewrite (check_finished_unfold _ _ _ _ _ Hg).
    by destruct (decide (c ∩ lfns = ∅)).
  - intros Hne. rewrite (check_finished_unfold _ _ _ _ _ Hg).
    destruct (decide ((c ∪ lfns) ∩ lfns = ∅)) as [He|]; [|done].
    destruct Hne. set_solver.
  - intros ->. rewrite (check_finished_unfold _ _ _ _ _ Hg).
    destruct (decide ((c ∪ ∅) ∩ ∅ = ∅)) as [|Hne]; [|set_solver].
    f_equal. set_solver.
Qed.

Lemma check_job_outputs_finished_witness :
  let outs := Some Scenario.outs1 in
  let lfns : gset string := {[ "A" ]} in
  (∀ x, x ∈ relevant_ids Scenario.jd1 "finished" outs →
        is_Some (Scenario.im1 !! x)) ∧
  (∀ l, l ∈ lfns ↔
        ∃ x ls, x ∈ relevant_ids Scenario.jd1 "finished" outs ∧
                Scenario.im1 !! x = Some ls ∧ l ∈ ls) ∧
  check_job_outputs ∅ Scenario.im1 Scenario.jd1 "finished" outs
  = (Returned, ∅ ∪ lfns) ∧
  check_job_outputs (∅ ∪ lfns) Scenario.im1 Scenario.jd1 "finished" outs
  = (Raised ValueError, ∅ ∪ lfns).
Proof.
  intros outs lfns.
  assert (Hg : gather_lfns Scenario.im1
                 (relevant_ids Scenario.jd1 "finished" outs) = Some lfns)
    by (vm_compute; reflexivity).
  assert (Hdom : ∀ x, x ∈ relevant_ids Scenario.jd1 "finished" outs →
                      is_Some (Scenario.im1 !! x))
    by (apply gather_lfns_is_Some; rewrite Hg; eauto).
  pose proof (fun l => elem_of_gather_lfns _ _ _ l Hg) as Hl.
  destruct (check_job_outputs_finished ∅ _ _ _ _ Hdom Hl) as [_ Hret].
  destruct Hret as (H1 & H2 & _); [vm_compute; reflexivity|].
  split_and!; [exact Hdom|exact Hl|exact H1|].
  apply H2. vm_compute. discriminate.
Defined.

(** C1, as stated, fails: an attempt none of whose jobs has finished can be
    fed twice, and the second call returns as the first did; so can an
    attempt whose finished job has an empty list of inputs. *)
Lemma check_job_outputs_finished_twice_returns :
  (check_job_outputs ∅ Scenario.im1 Scenario.jd_failed "finished"
     (Some Scenario.outs1) = (Returned, ∅) ∧
   check_job_outputs
     (check_job_outputs ∅ Scenario.im1 Scenario.jd_failed "finished"
        (Some Scenario.outs1)).2
     Scenario.im1 Scenario.jd_failed "finished" (Some Scenario.outs1)
   = (Returned, ∅)) ∧
  (let jd : gmap string job_info := {[ "1" := Scenario.finished ]} in
   let im : gmap string (list string) := {[ "1" := [] ]} in
   relevant_ids jd "finished" (Some Scenario.outs1) = {[ "1" ]} ∧
   check_job_outputs {[ "A" ]} im jd "finished" (Some Scenario.outs1)
   = (Returned, {[ "A" ]}) ∧
   check_job_outputs
     (check_job_outputs {[ "A" ]} im jd "finished" (Some Scenario.outs1)).2
     im jd "finished" (Some Scenario.outs1)
   = (Returned, {[ "A" ]})).
Proof.
  split; [split|intros jd im; split_and!]; vm_compute; reflexivity.
Qed.


Lemma check_job_outputs_snd_finished c im jd jo l :
  l ∈ (check_job_outputs c im jd "finished" jo).2 →
  l ∈ c ∨ ∃ x ls, x ∈ relevant_ids jd "finished" jo ∧ im !! x = Some ls ∧ l ∈ ls.
Proof.
  destruct (gather_lfns im (relevant_ids jd "finished" jo)) as [lfns|] eqn:Hg.
  - rewrite (check_finished_unfold _ _ _ _ _ Hg).
    destruct (decide (c ∩ lfns = ∅)); simpl; [|by left].
    rewrite elem_of_union, (elem_of_gather_lfns _ _ _ _ Hg). tauto.
  - unfold check_job_outputs.
    destruct (decide ("finished" = "failed")) as [?|_]; [done|].
    destruct (decide ("finished" = "finished")) as [_|?]; [|done].
    rewrite Hg. by left.
Qed.



(** The paths that the failed pass collects. *)
Lemma check_job_outputs_failed_elem c im jd outs p :
  check_job_outputs c im jd "failed" (Some outs)
  = (Returned, (check_job_outputs c im jd "failed" (Some outs)).2) ∧
  (p ∈ (check_job_outputs c im jd "failed" (Some outs)).2 ↔
   p ∈ c ∨ (p ∈ outs ∧ ∃ j info, jd !! j = Some info ∧ State info = "failed" ∧
                         PyStr.endswith p (nano_name j) = true)).
Proof.
  unfold check_job_outputs.
  destruct (decide ("failed" = "failed")) as [_|?]; [|done].
  split; [done|]. simpl.
  rewrite elem_of_union, elem_of_filter, Is_true_true, from_ids_true.
  setoid_rewrite elem_of_relevant_ids_some.
  setoid_rewrite elem_of_ids_in_state.
  setoid_rewrite has_output_true.
  split; [naive_solver|].
  intros [?|(Hp & j & info & ? & ? & ?)]; [by left|right].
  split; [|done]. exists j. split; [|done]. split; [eauto|].
  right. eauto.
Qed.

End Classifier.

(** ** The provenance check [check_status] *)

Lemma normpath_nonempty path : PosixPath.normpath path ≠ "".
Proof.
  unfold PosixPath.normpath.
  destruct (String.eqb path ""); [done|].
  match goal with |- (if String.eqb ?r "" then _ else _) ≠ _ =>
    destruct (String.eqb_spec r "") end; done.
Qed.

Lemma abspath_nonempty cwd path : PosixPath.abspath cwd path ≠ "".
Proof. apply normpath_nonempty. Qed.

(** C7.  The provenance check raises [ValueError] exactly when the status
    has no ['project_dir'] or one that differs from the absolute path of the
    crab directory, and returns exactly when the two are equal. *)
Theorem check_status_provenance (w : world) (st : status) (crab_dir : string) :
  let abs_crab_dir := PosixPath.abspath (getcwd w) crab_dir in
  (check_status w st crab_dir = Raised ValueError ↔
   project_dir st = None ∨
   ∃ d, project_dir st = Some d ∧ d ≠ abs_crab_dir) ∧
  (check_status w st crab_dir = Returned ↔
   project_dir st = Some abs_crab_dir).
Proof.
  intros abs_crab_dir. unfold check_status. fold abs_crab_dir.
  pose proof (abspath_nonempty (getcwd w) crab_dir) as Hne.
  fold abs_crab_dir in Hne.
  destruct (project_dir st) as [d|]; [|naive_solver].
  destruct (String.eqb_spec d "") as [->|Hd]; simpl.
  - split; [|naive_solver]. split; [|done]. intros _. right. eauto.
  - destruct (String.eqb_spec d abs_crab_dir) as [->|Hd']; simpl.
    + naive_solver.
    + split; [|naive_solver]. split; [|done]. intros _. right. eauto.
Qed.

(** ** The samples that need attention *)

Lemma dict_get_is_Some {V} (k : string) (d : list (string * V)) :
  k ∈ map fst d ↔ is_Some (dict_get k d).
Proof.
  induction d as [|[k' v] d IH]; simpl.
  - rewrite elem_of_nil. split; [done|]. by intros [? ?].
  - rewrite elem_of_cons. destruct (String.eqb_spec k' k) as [->|Hne].
    + split; eauto.
    + rewrite <- IH. naive_solver.
Qed.

Lemma needs_attention_true (d : sample_dict_t) :
  needs_attention d = true ↔
  missing d ≠ 0 ∨ (das_total d ≠ -1 ∧ das_total d ≠ total d).
Proof.
  unfold needs_attention.
  rewrite orb_true_iff, andb_true_iff, !negb_true_iff, !Z.eqb_neq. tauto.
Qed.

(** C9.  A sample is among [samples_with_missing_lfns] exactly when its
    summary has a missing count other than zero, or a catalogue total that
    is not [-1] and differs from the observed total. *)
Theorem samples_with_missing_lfns_iff
    (meta_infos : list (string * sample_dict_t)) (x : string) :
  x ∈ samples_with_missing_lfns meta_infos ↔
  ∃ d, dict_get x meta_infos = Some d ∧
       (missing d ≠ 0 ∨ (das_total d ≠ -1 ∧ das_total d ≠ total d)).
Proof.
  unfold samples_with_missing_lfns.
  rewrite list_elem_of_In, filter_In, <- list_elem_of_In, dict_get_is_Some.
  destruct (dict_get x meta_infos) as [d|].
  - rewrite needs_attention_true. split.
    + intros [_ H]. eauto.
    + intros (d' & [= <-] & H). eauto.
  - split; [by intros [_ ?]|]. by intros (d & ? & _).
Qed.

(** ** The blocks probed on the storage element *)

Section Blocks.

Variable py_int : string -> option Z.
Variable w : world.

Lemma block_range_small (m : Z) :
  Z.abs m < 2 ^ 53 → block_range m = seq 0 (Z.to_nat (Z.quot m 1000 + 1)).
Proof.
  intros Hm. unfold block_range, PyFloat.int_div_1000.
  by destruct (Z.ltb_spec (Z.abs m) (2 ^ 53)); [|lia].
Qed.

(** From [2^53] on the quotient of the doubles can exceed the integer
    quotient: with the largest id 17592186044416999 one block more is
    probed. *)
Example int_div_1000_rounds_up :
  PyFloat.int_div_1000 2500 = 2 ∧
  PyFloat.to_int (PyFloat.div_1000 2500) = 2 ∧
  PyFloat.to_int (PyFloat.div_1000 (2 ^ 53 - 1)) = Z.quot (2 ^ 53 - 1) 1000 ∧
  Z.quot 17592186044416999 1000 = 17592186044416 ∧
  PyFloat.int_div_1000 17592186044416999 = 17592186044417.
Proof. split_and!; vm_compute; reflexivity. Qed.

Lemma fold_max_spec (zs : list Z) (z : Z) :
  let r := fold_right Z.max z zs in
  r ∈ z :: zs ∧ Forall (fun y => y <= r) (z :: zs).
Proof.
  induction zs as [|a zs IH]; simpl.
  - split; [apply list_elem_of_here|]. repeat constructor. lia.
  - destruct IH as [Hin Hall]. set (r := fold_right Z.max z zs) in *.
    apply Forall_cons in Hall as [Hz Hall]. split.
    + destruct (Z.max_spec a r) as [[_ ->]|[_ ->]].
      * apply elem_of_cons in Hin as [->|Hin]; [left|right; by right].
      * right. left.
    + constructor; [lia|]. constructor; [lia|].
      eapply Forall_impl; [exact Hall|]. simpl. intros. lia.
Qed.

Lemma max_jobid_spec (jd : gmap string job_info) (m : Z) :
  (∃ k, k ∈ dom jd ∧ py_int k = Some m) →
  (∀ k, k ∈ dom jd → ∃ z, py_int k = Some z ∧ z <= m) →
  max_jobid py_int jd = Ok m.
Proof.
  intros (k & Hk & Hkm) Hall. unfold max_jobid.
  destruct (mapM py_int (elements (dom jd))) as [zs|] eqn:HM.
  - apply mapM_Some in HM.
    assert (Hle : Forall (fun y => y <= m) zs).
    { apply Forall_forall. intros y Hy.
      apply list_elem_of_lookup in Hy as [i Hi].
      destruct (Forall2_lookup_r _ _ _ _ _ HM Hi) as (x & Hx & Hxy).
      destruct (Hall x) as (z & Hz & ?).
      { apply elem_of_elements, list_elem_of_lookup. eauto. }
      congruence. }
    assert (Hm : m ∈ zs).
    { apply elem_of_elements, list_elem_of_lookup in Hk as [i Hi].
      destruct (Forall2_lookup_l _ _ _ _ _ HM Hi) as (y & Hy & Hky).
      apply list_elem_of_lookup. exists i. congruence. }
    destruct zs as [|z zs]; [by apply elem_of_nil in Hm|].
    destruct (fold_max_spec zs z) as [Hin Hub]. simpl in Hin, Hub.
    f_equal. apply Z.le_antisymm.
    + rewrite Forall_forall in Hle. by apply Hle.
    + rewrite Forall_forall in Hub. by apply Hub.
  - apply mapM_None, Exists_exists in HM as (x & Hx & Hnone).
    apply elem_of_elements in Hx. destruct (Hall x Hx) as (z & Hz & _).
    congruence.
Qed.

Lemma remote_probes_app (t1 t2 : list event) :
  remote_probes (t1 ++ t2) = (remote_probes t1 ++ remote_probes t2)%list.
Proof. apply omap_app. Qed.

Lemma listdir_calls_app (t1 t2 : list event) :
  listdir_calls (t1 ++ t2) = (listdir_calls t1 ++ listdir_calls t2)%list.
Proof. apply omap_app. Qed.

Lemma load_remote_output_probes (wlcg_path : string) (s : acc) :
  (∃ files, (load_remote_output w wlcg_path s).1 = Ok files) ∧
  remote_probes (trace (load_remote_output w wlcg_path s).2)
  = (remote_probes (trace s) ++ [wlcg_path])%list ∧
  listdir_calls (trace (load_remote_output w wlcg_path s).2)
  = (listdir_calls (trace s) ++
     if gfal2 w && creat_context w then [wlcg_path] else [])%list.
Proof.
  unfold load_remote_output, try_listdir, bind, emit, ret, when, embed, emit,
    verbose.
  simpl. destruct (gfal2 w); simpl.
  - destruct (creat_context w); simpl;
      [destruct (listdir w wlcg_path); simpl|];
      try (destruct (1 <=? verbosity w); simpl); (split; [eauto|]);
      rewrite ?remote_probes_app, ?listdir_calls_app; simpl;
      by rewrite ?app_nil_r.
  - split; [eauto|]. rewrite !remote_probes_app, !listdir_calls_app. simpl.
    by rewrite !app_nil_r.
Qed.

Lemma load_blocks_probes (tmpl : string) (blocks : list nat)
    (outs : gset string) (s : acc) :
  let paths := map (fun i => PosixPath.join tmpl (PyStr.fmt_04d i)) blocks in
  (∃ outs', (load_blocks w tmpl blocks outs s).1 = Ok outs') ∧
  remote_probes (trace (load_blocks w tmpl blocks outs s).2)
  = (remote_probes (trace s) ++ paths)%list ∧
  listdir_calls (trace (load_blocks w tmpl blocks outs s).2)
  = (listdir_calls (trace s) ++
     if gfal2 w && creat_context w then paths else [])%list.
Proof.
  revert outs s. induction blocks as [|i blocks IH]; intros outs s; simpl.
  - split; [by eexists|].
    destruct (gfal2 w && creat_context w); by rewrite !app_nil_r.
  - unfold bind.
    destruct (load_remote_output_probes
                (PosixPath.join tmpl (PyStr.fmt_04d i)) s)
      as ([files Hf] & Hp & Hl).
    destruct (load_remote_output w _ s) as [r s1]. simpl in Hf, Hp, Hl.
    subst r.
    destruct (IH (outs ∪ list_to_set files) s1) as (Hok & Htr & Hls).
    split; [exact Hok|]. rewrite Htr, Hp, Hls, Hl, <- !app_assoc.
    by destruct (gfal2 w && creat_context w).
Qed.

(** C8.  When the keys of the status are integers with maximum [m], and
    [0 <= m < 2^53], the outputs are loaded, and [load_remote_output] is
    called on the block directories [0] to [m / 1000], in this order and on
    no other path; when [gfal2] was imported and gives a context these are
    the directories listed on the storage element, and otherwise none is;
    every id from [0] to [m] lies in one of these blocks of 1000 ids; for
    [m = 2500] the blocks are [0000], [0001] and [0002]. *)
Theorem load_job_outputs_blocks (tmpl : string) (jd : gmap string job_info)
    (m : Z) (s : acc) :
  (∃ k, k ∈ dom jd ∧ py_int k = Some m) →
  (∀ k, k ∈ dom jd → ∃ z, py_int k = Some z ∧ z <= m) →
  0 <= m < 2 ^ 53 →
  let r := load_job_outputs py_int w tmpl jd s in
  let blocks := seq 0 (S (Z.to_nat (m / 1000))) in
  let paths := map (fun i => PosixPath.join tmpl (PyStr.fmt_04d i)) blocks in
  (∃ outs, r.1 = Ok outs) ∧
  remote_probes (trace r.2) = (remote_probes (trace s) ++ paths)%list ∧
  listdir_calls (trace r.2)
  = (listdir_calls (trace s) ++
     if gfal2 w && creat_context w then paths else [])%list ∧
  (∀ z, 0 <= z <= m →
        ∃ i, i ∈ blocks ∧
             1000 * Z.of_nat i <= z < 1000 * (Z.of_nat i + 1)) ∧
  (m = 2500 →
   remote_probes (trace r.2)
   = (remote_probes (trace s) ++
      [PosixPath.join tmpl "0000"; PosixPath.join tmpl "0001";
       PosixPath.join tmpl "0002"])%list).
Proof.
  intros Hmax Hall Hm r blocks paths.
  assert (Hr : block_range m = blocks).
  { unfold blocks. rewrite block_range_small by lia.
    rewrite Z.quot_div_nonneg by lia.
    f_equal. assert (0 <= m / 1000) by (apply Z.div_pos; lia). lia. }
  assert (Hrun : (∃ outs, r.1 = Ok outs) ∧
     remote_probes (trace r.2) = (remote_probes (trace s) ++ paths)%list ∧
     listdir_calls (trace r.2)
     = (listdir_calls (trace s) ++
        if gfal2 w && creat_context w then paths else [])%list).
  { subst r. unfold load_job_outputs, bind.
    rewrite (max_jobid_spec _ _ Hmax Hall). simpl. rewrite Hr.
    apply load_blocks_probes. }
  destruct Hrun as (Hok & Htr & Hls). split_and!; [done|done|done| |].
  - intros z Hz. exists (Z.to_nat (z / 1000)).
    assert (0 <= z / 1000) by (apply Z.div_pos; lia).
    assert (z / 1000 <= m / 1000) by (apply Z.div_le_mono; lia).
    split.
    + apply list_elem_of_In, in_seq. lia.
    + rewrite Z2Nat.id by lia.
      pose proof (Z.mul_div_le z 1000).
      pose proof (Z.mul_succ_div_gt z 1000). lia.
  - intros ->. rewrite Htr. done.
Qed.

End Blocks.

Lemma load_job_outputs_blocks_witness :
  let jd : gmap string job_info :=
    {[ "7" := Scenario.failed; "2500" := Scenario.finished ]} in
  let r := load_job_outputs Scenario.parse_int (Scenario.world1 0 [])
             "srm:/pnfs/c/crab_S/t" jd
             {| known_lfns := ∅; done_lfns := ∅; failed_job_outputs := ∅;
                trace := [] |} in
  (∃ k, k ∈ dom jd ∧ Scenario.parse_int k = Some 2500) ∧
  (∀ k, k ∈ dom jd → ∃ z, Scenario.parse_int k = Some z ∧ z <= 2500) ∧
  0 <= 2500 < 2 ^ 53 ∧
  remote_probes (trace r.2)
  = ["srm:/pnfs/c/crab_S/t/0000"; "srm:/pnfs/c/crab_S/t/0001";
     "srm:/pnfs/c/crab_S/t/0002"].
Proof.
  intros jd r.
  assert (H1 : ∃ k, k ∈ dom jd ∧ Scenario.parse_int k = Some 2500).
  { exists "2500". split; [|reflexivity].
    apply elem_of_dom. exists Scenario.finished. vm_compute. reflexivity. }
  assert (H2 : ∀ k, k ∈ dom jd →
                    ∃ z, Scenario.parse_int k = Some z ∧ z <= 2500).
  { intros k Hk. subst jd. rewrite dom_insert_L, dom_singleton_L in Hk.
    apply elem_of_union in Hk as [Hk|Hk]; apply elem_of_singleton in Hk;
      subst k; [exists 7|exists 2500]; (split; [reflexivity|lia]). }
  assert (H3 : 0 <= 2500 < 2 ^ 53) by lia.
  split; [exact H1|]. split; [exact H2|]. split; [exact H3|].
  exact (proj2 (proj2 (proj2 (proj2
           (load_job_outputs_blocks Scenario.parse_int (Scenario.world1 0 [])
              "srm:/pnfs/c/crab_S/t" jd 2500 _ H1 H2 H3)))) eq_refl).
Defined.

(** ** Rules for [triple] *)

Section Rules.

Context {A B : Type}.
Implicit Types (P Q : acc -> Prop).

Lemma triple_ret P (a : A) : triple P (ret a) P.
Proof. by intros s. Qed.

Lemma triple_raise P (e : exn) : triple P (raise (A:=A) e) P.
Proof. by intros s. Qed.

Lemma triple_bind P P1 Q (m : M A) (k : A -> M B) :
  triple P m P1 → (∀ s, P1 s → Q s) → (∀ a, triple P1 (k a) Q) →
  triple P (bind m k) Q.
Proof.
  intros Hm Himp Hk s HP. unfold bind. specialize (Hm s HP).
  destruct (m s) as [[a|e] s1]; simpl in *; [by apply Hk|by apply Himp].
Qed.

Lemma triple_conseq P P' Q Q' (m : M A) :
  triple P' m Q' → (∀ s, P s → P' s) → (∀ s, Q' s → Q s) → triple P m Q.
Proof. intros Hm HP HQ s Hs. apply HQ, Hm, HP, Hs. Qed.

Lemma only_emits_triple P (m : M A) :
  only_emits m → append_stable P → triple P m P.
Proof. intros Hm HP s Hs. destruct (Hm s) as [t ->]. by apply HP. Qed.

Lemma only_emits_ret (a : A) : only_emits (ret a).
Proof. intros s. exists []. destruct s. simpl. by rewrite app_nil_r. Qed.

Lemma only_emits_raise (e : exn) : only_emits (raise (A:=A) e).
Proof. intros s. exists []. destruct s. simpl. by rewrite app_nil_r. Qed.

Lemma only_emits_bind (m : M A) (k : A -> M B) :
  only_emits m → (∀ a, only_emits (k a)) → only_emits (bind m k).
Proof.
  intros Hm Hk s. unfold bind. destruct (Hm s) as [t Ht].
  destruct (m s) as [[a|e] s1]; simpl in *; subst s1.
  - destruct (Hk a (with_trace s (trace s ++ t)%list)) as [t' ->].
    exists (t ++ t')%list. simpl. by rewrite app_assoc.
  - by exists t.
Qed.

End Rules.

Lemma triple_inv_bind {A B} (P : acc -> Prop) (m : M A) (k : A -> M B) :
  triple P m P → (∀ a, triple P (k a) P) → triple P (bind m k) P.
Proof. intros Hm Hk. by apply triple_bind with P. Qed.

Lemma only_emits_emit (e : event) : only_emits (emit e).
Proof. intros s. by exists [e]. Qed.

Lemma only_emits_when (b : bool) (m : M unit) :
  only_emits m → only_emits (when b m).
Proof. destruct b; [done|]. intros _. apply only_emits_ret. Qed.

Lemma only_emits_for_each {A} (l : list A) (body : A -> M unit) :
  (∀ x, only_emits (body x)) → only_emits (for_each l body).
Proof.
  intros Hb. induction l as [|x l IH]; simpl.
  - apply only_emits_ret.
  - apply only_emits_bind; [apply Hb|done].
Qed.

Lemma only_emits_lift_outcome (o : outcome) : only_emits (lift_outcome o).
Proof. destruct o; [apply only_emits_ret|apply only_emits_raise]. Qed.

Lemma only_emits_lift_result {A} (r : result A) : only_emits (lift_result r).
Proof. destruct r; [apply only_emits_ret|apply only_emits_raise]. Qed.

Create HintDb emits.

#[local] Hint Resolve only_emits_ret only_emits_raise only_emits_emit
  only_emits_when only_emits_lift_outcome only_emits_lift_result : emits.
#[local] Hint Extern 2 (only_emits (bind _ _)) =>
  apply only_emits_bind; [|intros ?] : emits.
#[local] Hint Extern 2 (only_emits (if ?b then _ else _)) => destruct b : emits.
#[local] Hint Extern 2 (only_emits (match ?x with _ => _ end)) =>
  destruct x : emits.

Section ScriptEmits.

Variable py_int : string -> option Z.
Variable w : world.

Lemma only_emits_exists (path : string) : only_emits (exists_ w path).
Proof. unfold exists_. auto with emits. Qed.

Lemma only_emits_embed : only_emits embed.
Proof. apply only_emits_emit. Qed.

#[local] Hint Resolve only_emits_exists only_emits_embed : emits.

Lemma only_emits_try_listdir (p : string) : only_emits (try_listdir w p).
Proof. unfold try_listdir. auto with emits. Qed.

Lemma only_emits_get_campaign_name (das_key : option string) :
  only_emits (get_campaign_name w das_key).
Proof. unfold get_campaign_name. auto 10 with emits. Qed.

Lemma only_emits_load_das_key (sample_name : string) :
  only_emits (load_das_key w sample_name).
Proof. unfold load_das_key. auto 10 with emits. Qed.

#[local] Hint Resolve only_emits_try_listdir only_emits_get_campaign_name
  : emits.

Lemma only_emits_load_remote_output (p : string) :
  only_emits (load_remote_output w p).
Proof. unfold load_remote_output. auto 10 with emits. Qed.

Lemma only_emits_get_job_inputs (crab_dir f : string) :
  only_emits (get_job_inputs w crab_dir f).
Proof. unfold get_job_inputs. auto 10 with emits. Qed.

Lemma only_emits_get_status (d f c : string) : only_emits (get_status w d f c).
Proof. unfold get_status. auto 10 with emits. Qed.

#[local] Hint Resolve only_emits_load_remote_output : emits.

Lemma only_emits_load_blocks (tmpl : string) (blocks : list nat)
    (outs : gset string) : only_emits (load_blocks w tmpl blocks outs).
Proof.
  revert outs. induction blocks as [|i blocks IH]; intros outs; simpl;
    auto with emits.
Qed.

Lemma only_emits_load_job_outputs (tmpl : string) (jd : gmap string job_info) :
  only_emits (load_job_outputs py_int w tmpl jd).
Proof.
  unfold load_job_outputs. apply only_emits_bind; [auto with emits|].
  intros a. apply only_emits_load_blocks.
Qed.

End ScriptEmits.

(** ** LFNs that were not known *)

Lemma printed_app (t1 t2 : list event) :
  printed (t1 ++ t2) = (printed t1 ++ printed t2)%list.
Proof. apply omap_app. Qed.

Lemma difference_size_zero (a b : gset string) :
  ¬ size (a ∖ b) ≠ 0%nat → a ⊆ b.
Proof.
  intros H. assert (Hz : size (a ∖ b) = 0%nat) by lia.
  apply size_empty_inv in Hz. intros x Hx.
  destruct (decide (x ∈ b)); [done|]. set_solver.
Qed.

Lemma update_known_spec (w : world) (crab_dir : string)
    (flat_lfns : gset string) (s : acc) :
  let r := update_known w crab_dir flat_lfns s in
  r.1 = Ok tt ∧
  known_lfns r.2 = known_lfns s ∪ flat_lfns ∧
  done_lfns r.2 = done_lfns s ∧
  failed_job_outputs r.2 = failed_job_outputs s ∧
  printed (trace r.2) = printed (trace s) ∧
  (verbosity w = 0 → trace r.2 = trace s).
Proof.
  destruct s as [k d f t].
  unfold update_known, bind, get_known, when, set_known, ret, embed, emit.
  simpl. case_bool_decide as Hk; simpl.
  - apply size_zero_empty in Hk. subst k.
    destruct (decide (size (flat_lfns ∖ (∅ ∪ flat_lfns)) ≠ 0%nat)) as [Hu|Hu].
    + destruct Hu. apply size_zero_empty. set_solver.
    + simpl. split_and!; done.
  - destruct (decide (size (flat_lfns ∖ k) ≠ 0%nat)) as [Hu|Hu].
    + destruct (decide (verbosity w = 0)) as [Hv|Hv]; simpl.
      * split_and!; done.
      * split_and!; try done.
        rewrite printed_app. simpl. by rewrite app_nil_r.
    + apply difference_size_zero in Hu. simpl.
      split_and!; try done. set_solver.
Qed.



(** ** The cascade *)

Lemma append_stable_done_known : append_stable done_known.
Proof. by intros s t. Qed.

Lemma append_stable_inputs_known flat : append_stable (inputs_known flat).
Proof. by intros s t. Qed.

Lemma append_stable_extends_by t0 s0 : append_stable (extends_by t0 s0).
Proof.
  intros s t (Hk & Hd & Hf & t1 & Ht). split_and!; try done.
  exists (t1 ++ t)%list. simpl. rewrite Ht. by rewrite <- !app_assoc.
Qed.

Lemma extends_by_refl s : extends s s.
Proof. split_and!; try done. exists []. by rewrite app_nil_r. Qed.

Lemma elem_of_flat_lfns_of (im : gmap string (list string)) (l : string) :
  l ∈ flat_lfns_of im ↔ ∃ x ls, im !! x = Some ls ∧ l ∈ ls.
Proof.
  unfold flat_lfns_of. rewrite elem_of_list_to_set, elem_of_concat. split.
  - intros (ls & Hls & Hl).
    apply list_elem_of_In, in_map_iff in Hls as ([x ls'] & <- & Hin).
    apply list_elem_of_In, elem_of_map_to_list in Hin. eauto.
  - intros (x & ls & Hx & Hl). exists ls. split; [|done].
    apply list_elem_of_In, in_map_iff. exists (x, ls). split; [done|].
    by apply list_elem_of_In, elem_of_map_to_list.
Qed.

Section Cascade.

Variable py_int : string -> option Z.
Variable w : world.

Implicit Types (im : gmap string (list string)) (jd : gmap string job_info).
Implicit Types (outs : gset string).

Lemma classify_failed_spec im jd outs (s : acc) :
  classify_failed im jd outs s
  = (Ok tt,
     {| known_lfns := known_lfns s; done_lfns := done_lfns s;
        failed_job_outputs :=
          (check_job_outputs (failed_job_outputs s) im jd "failed"
             (Some outs)).2;
        trace := trace s |}) ∧
  failed_job_outputs s
  ⊆ (check_job_outputs (failed_job_outputs s) im jd "failed" (Some outs)).2.
Proof.
  unfold classify_failed.
  destruct (check_job_outputs_failed_elem (failed_job_outputs s) im jd outs "")
    as [Hret _].
  rewrite Hret. simpl. split; [done|].
  intros p Hp.
  apply (check_job_outputs_failed_elem (failed_job_outputs s) im jd outs p).
  by left.
Qed.

Lemma classify_finished_snd im jd outs (s : acc) :
  (classify_finished im jd outs s).2
  = {| known_lfns := known_lfns s;
       done_lfns :=
         (check_job_outputs (done_lfns s) im jd "finished" (Some outs)).2;
       failed_job_outputs := failed_job_outputs s;
       trace := trace s |}.
Proof.
  unfold classify_finished.
  destruct (check_job_outputs (done_lfns s) im jd "finished" (Some outs))
    as [[|e] c]; done.
Qed.

Lemma finished_pass_grows (c : gset string) im jd jo :
  c ⊆ (check_job_outputs c im jd "finished" jo).2.
Proof.
  unfold check_job_outputs.
  destruct (decide ("finished" = "failed")) as [?|_]; [done|].
  destruct (decide ("finished" = "finished")) as [_|?]; [|done].
  destruct (gather_lfns im _); [|done].
  simpl. case_decide; simpl; set_solver.
Qed.

Lemma triple_classify_failed_inputs_known flat im jd outs :
  triple (inputs_known flat) (classify_failed im jd outs) (inputs_known flat).
Proof.
  intros s Hs. destruct (classify_failed_spec im jd outs s) as [-> _]. done.
Qed.

Lemma triple_classify_finished_inputs_known im jd outs :
  triple (inputs_known (flat_lfns_of im)) (classify_finished im jd outs)
    done_known.
Proof.
  intros s [Hd Hf]. rewrite classify_finished_snd.
  unfold done_known. simpl. intros l Hl.
  apply check_job_outputs_snd_finished in Hl
    as [Hl|(x & ls & _ & Hx & Hl)]; [by apply Hd|].
  apply Hf, elem_of_flat_lfns_of. eauto.
Qed.

Lemma triple_update_known_inputs_known crab_dir flat :
  triple done_known (update_known w crab_dir flat) (inputs_known flat).
Proof.
  intros s Hs.
  destruct (update_known_spec w crab_dir flat s) as (_ & Hk & Hd & _).
  unfold inputs_known. rewrite Hk, Hd. unfold done_known in Hs. set_solver.
Qed.

Lemma triple_update_known_extends t0 s0 crab_dir flat :
  triple (extends_by t0 s0) (update_known w crab_dir flat) (extends_by t0 s0).
Proof.
  intros s (Hk & Hd & Hf & t & Ht). destruct s as [k d f tr].
  unfold update_known, bind, get_known, when, set_known, ret, embed, emit.
  simpl in *. case_bool_decide; simpl; repeat case_decide; simpl;
    (split_and!; [set_solver|done|done|]);
    first [ by exists t
          | exists (t ++ [EvEmbed])%list; rewrite Ht;
            by rewrite <- !app_assoc ].
Qed.

Lemma triple_classify_failed_extends t0 s0 im jd outs :
  triple (extends_by t0 s0) (classify_failed im jd outs) (extends_by t0 s0).
Proof.
  intros s (Hk & Hd & Hf & Ht).
  destruct (classify_failed_spec im jd outs s) as [-> Hsub]. simpl.
  split_and!; try done. by etrans.
Qed.

Lemma triple_classify_finished_extends t0 s0 im jd outs :
  triple (extends_by t0 s0) (classify_finished im jd outs) (extends_by t0 s0).
Proof.
  intros s (Hk & Hd & Hf & Ht). rewrite classify_finished_snd. simpl.
  split_and!; try done. etrans; [exact Hd|].
  apply finished_pass_grows.
Qed.

(** The shape of [check_crab_directory], once for every assertion. *)
Lemma check_crab_directory_triple (P0 P : acc -> Prop)
    (P1 : gmap string (list string) -> acc -> Prop)
    (sample_dir sample_name suffix : string) (das_key : option string)
    (status_file wlcg_dir wlcg_prefix job_input_file : string) :
  triple P0 (exists_ w (crab_dir_of sample_dir sample_name suffix)) P →
  append_stable P → (∀ im, append_stable (P1 im)) →
  (∀ im s, P1 im s → P s) →
  (∀ im crab_dir, triple P (update_known w crab_dir (flat_lfns_of im)) (P1 im)) →
  (∀ im jd outs, triple (P1 im) (classify_failed im jd outs) (P1 im)) →
  (∀ im jd outs, triple (P1 im) (classify_finished im jd outs) P) →
  triple P0
    (check_crab_directory py_int w sample_dir sample_name suffix das_key
       status_file wlcg_dir wlcg_prefix job_input_file) P.
Proof.
  intros Hex HP HP1 Himp Hupd Hfail Hfin. unfold check_crab_directory.
  apply triple_bind with P; [exact Hex|done|]. intros ex.
  destruct (negb ex).
  { apply only_emits_triple; auto with emits. }
  apply triple_inv_bind.
  { apply only_emits_triple; [apply only_emits_get_job_inputs|done]. }
  intros [im|]; [|apply only_emits_triple; auto with emits].
  case_decide; [apply only_emits_triple; auto with emits|].
  apply triple_bind with (P1 im); [apply Hupd|apply Himp|intros _].
  apply triple_bind with (P1 im); [|apply Himp|intros st].
  { apply only_emits_triple; [apply only_emits_get_status|done]. }
  apply triple_bind with (P1 im); [|apply Himp|intros _].
  { apply only_emits_triple; auto with emits. }
  apply triple_bind with (P1 im); [|apply Himp|intros time_stamp].
  { apply only_emits_triple; auto 10 with emits. }
  apply triple_bind with (P1 im); [|apply Himp|intros campaign].
  { apply only_emits_triple; [apply only_emits_get_campaign_name|done]. }
  apply triple_bind with (P1 im); [|apply Himp|intros job_outputs].
  { apply only_emits_triple; [apply only_emits_load_job_outputs|done]. }
  apply triple_bind with (P1 im); [apply Hfail|apply Himp|intros _].
  apply Hfin.
Qed.

Lemma triple_for_each {A} (P : acc -> Prop) (l : list A) (body : A -> M unit) :
  (∀ x, triple P (body x) P) → triple P (for_each l body) P.
Proof.
  intros Hb. induction l as [|x l IH]; simpl.
  - apply triple_ret.
  - apply triple_inv_bind; [apply Hb|done].
Qed.

Lemma check_crab_directory_done_known sample_dir sample_name suffix das_key
    status_file wlcg_dir wlcg_prefix job_input_file :
  triple done_known
    (check_crab_directory py_int w sample_dir sample_name suffix das_key
       status_file wlcg_dir wlcg_prefix job_input_file) done_known.
Proof.
  apply check_crab_directory_triple
    with (P1 := fun im => inputs_known (flat_lfns_of im)).
  - apply only_emits_triple;
      [apply only_emits_exists|apply append_stable_done_known].
  - apply append_stable_done_known.
  - intros im. apply append_stable_inputs_known.
  - by intros im s [? _].
  - intros. apply triple_update_known_inputs_known.
  - intros. apply triple_classify_failed_inputs_known.
  - intros. apply triple_classify_finished_inputs_known.
Qed.

Lemma check_crab_directory_extends_by t0 s0 (P0 : acc -> Prop)
    sample_dir sample_name suffix das_key
    status_file wlcg_dir wlcg_prefix job_input_file :
  triple P0 (exists_ w (crab_dir_of sample_dir sample_name suffix))
    (extends_by t0 s0) →
  triple P0
    (check_crab_directory py_int w sample_dir sample_name suffix das_key
       status_file wlcg_dir wlcg_prefix job_input_file) (extends_by t0 s0).
Proof.
  intros Hex. apply check_crab_directory_triple
    with (P1 := fun _ => extends_by t0 s0); try done.
  - apply append_stable_extends_by.
  - intros _. apply append_stable_extends_by.
  - intros. apply triple_update_known_extends.
  - intros. apply triple_classify_failed_extends.
  - intros. apply triple_classify_finished_extends.
Qed.

Lemma cascade_done_known sample_dir sample_name das_key wlcg_dir wlcg_prefix
    (attempts : list (string * string)) :
  triple done_known
    (cascade py_int w sample_dir sample_name das_key wlcg_dir wlcg_prefix
       attempts) done_known.
Proof.
  apply triple_for_each. intros [suffix status_file].
  apply check_crab_directory_done_known.
Qed.

Lemma cascade_extends_by t0 s0 sample_dir sample_name das_key wlcg_dir
    wlcg_prefix (attempts : list (string * string)) :
  triple (extends_by t0 s0)
    (cascade py_int w sample_dir sample_name das_key wlcg_dir wlcg_prefix
       attempts) (extends_by t0 s0).
Proof.
  apply triple_for_each. intros [suffix status_file].
  apply check_crab_directory_extends_by.
  apply only_emits_triple;
    [apply only_emits_exists|apply append_stable_extends_by].
Qed.

End Cascade.

(** ** Computations that only report *)

Lemma emits_ok_ret {A} (a : A) : emits_ok (ret a) a.
Proof. intros s. exists []. destruct s. simpl. by rewrite app_nil_r. Qed.

Lemma emits_ok_emit (e : event) : emits_ok (emit e) tt.
Proof. intros s. by exists [e]. Qed.

Lemma emits_ok_bind {A B} (m : M A) (k : A -> M B) (a : A) (b : B) :
  emits_ok m a → emits_ok (k a) b → emits_ok (bind m k) b.
Proof.
  intros Hm Hk s. unfold bind. destruct (Hm s) as [t ->].
  destruct (Hk (with_trace s (trace s ++ t)%list)) as [t' ->].
  exists (t ++ t')%list. simpl. by rewrite app_assoc.
Qed.

Lemma emits_ok_when (b : bool) (m : M unit) :
  emits_ok m tt → emits_ok (when b m) tt.
Proof. destruct b; [done|]. intros _. apply emits_ok_ret. Qed.

Lemma emits_ok_for_each {A} (l : list A) (body : A -> M unit) :
  (∀ x, emits_ok (body x) tt) → emits_ok (for_each l body) tt.
Proof.
  intros Hb. induction l as [|x l IH]; simpl.
  - apply emits_ok_ret.
  - eapply emits_ok_bind; [apply Hb|done].
Qed.

(** ** The accounting of one sample *)

Section Accounting.

Variable py_int : string -> option Z.
Variable w : world.

Lemma summarise_spec (sample_dir : string) (n_total : Z) (dump : bool)
    (s : acc) :
  ∃ d t,
    summarise w sample_dir n_total dump s
    = (Ok d, with_trace s (trace s ++ t)%list) ∧
    missing d
    = Z.of_nat (size (symmetric_difference (known_lfns s) (done_lfns s))) ∧
    (dump = true →
     missing_lfns d
     = Some (symmetric_difference (known_lfns s) (done_lfns s))).
Proof.
  unfold summarise.
  match goal with
  | |- ∃ d t, bind ?m (fun _ => ret ?d0) s = _ ∧ _ =>
      assert (Hm : emits_ok (bind m (fun _ => ret d0)) d0)
  end.
  { eapply emits_ok_bind; [|apply emits_ok_ret].
    apply emits_ok_when.
    eapply emits_ok_bind; apply emits_ok_when;
      (eapply emits_ok_bind; [apply emits_ok_emit|]);
      [eapply emits_ok_bind; [apply emits_ok_emit|]|];
      apply emits_ok_for_each; intros; apply emits_ok_emit. }
  destruct (Hm s) as [t Ht]. eexists _, t. split; [exact Ht|].
  simpl. split; [done|]. by intros ->.
Qed.

Lemma symmetric_difference_subseteq (known done : gset string) :
  done ⊆ known → symmetric_difference known done = known ∖ done.
Proof. unfold symmetric_difference. set_solver. Qed.

Lemma load_das_key_run (sample_name : string) (s : acc) :
  load_das_key w sample_name s
  = (Ok (das_key_of w sample_name),
     with_trace s (trace s ++ das_key_events w sample_name)).
Proof.
  unfold load_das_key, das_key_of, das_key_events. destruct s as [k d f tr].
  case_decide as Hsz.
  - rewrite bool_decide_eq_true_2 by done.
    apply map_size_empty_iff in Hsz. rewrite Hsz, lookup_empty.
    unfold with_trace. destruct (verbose w); simpl; [done|].
    by rewrite app_nil_r.
  - rewrite bool_decide_eq_false_2 by done. unfold ret, with_trace. simpl.
    by rewrite app_nil_r.
Qed.

(** The sets with which the cascade of a sample starts, after the events
    [tr]. *)
Lemma reconcile_unfold (sample_dir wlcg_dir wlcg_prefix : string)
    (attempts : list (string * string)) (dump_filelists : bool)
    (tr : list event) :
  let sd := PyStr.strip "/" sample_dir in
  let name := PosixPath.basename sd in
  let key := das_key_of w name in
  let K := get_dbs_lfns w key in
  reconcile py_int w sample_dir wlcg_dir wlcg_prefix attempts dump_filelists tr
  = (cascade py_int w sd name key wlcg_dir wlcg_prefix attempts ;;
     do d <- summarise w sd
               (if decide (0 < size K)%nat then Z.of_nat (size K)
                else das_num_file w key) dump_filelists;
     ret (name, d))
      {| known_lfns := K; done_lfns := ∅; failed_job_outputs := ∅;
         trace := (tr ++ das_key_events w name)%list |}.
Proof.
  intros sd name key K. unfold reconcile. fold sd name.
  unfold bind at 1. rewrite load_das_key_run. fold key K. done.
Qed.

(** C2.  When the body of [main] for one sample ends without an exception,
    the done LFNs are among the known ones, the symmetric difference that
    the script computes is the known LFNs that are not done, the reported
    missing count and list are those of that set, and the count is zero
    exactly when every known LFN is done. *)
Theorem reconcile_accounting (sample_dir wlcg_dir wlcg_prefix : string)
    (attempts : list (string * string)) (dump_filelists : bool)
    (tr : list event) (sample_name : string) (d : sample_dict_t) (s : acc) :
  reconcile py_int w sample_dir wlcg_dir wlcg_prefix attempts dump_filelists tr
  = (Ok (sample_name, d), s) →
  done_lfns s ⊆ known_lfns s ∧
  symmetric_difference (known_lfns s) (done_lfns s)
  = known_lfns s ∖ done_lfns s ∧
  missing d = Z.of_nat (size (known_lfns s ∖ done_lfns s)) ∧
  (dump_filelists = true →
   missing_lfns d = Some (known_lfns s ∖ done_lfns s)) ∧
  (missing d = 0 ↔ known_lfns s ⊆ done_lfns s).
Proof.
  rewrite reconcile_unfold.
  set (sd := PyStr.strip "/" sample_dir).
  set (name := PosixPath.basename sd).
  set (key := das_key_of w name).
  set (s0 := {| known_lfns := get_dbs_lfns w key; done_lfns := ∅;
                failed_job_outputs := ∅;
                trace := (tr ++ das_key_events w name)%list |}).
  set (n := if decide (0 < size (get_dbs_lfns w key))%nat then _ else _).
  intros Hrun.
  assert (H0 : done_known s0) by (unfold done_known; set_solver).
  pose proof (cascade_done_known py_int w sd name key wlcg_dir wlcg_prefix
                attempts s0 H0) as Hinv.
  unfold bind in Hrun.
  destruct (cascade py_int w sd name key wlcg_dir wlcg_prefix attempts s0)
    as [[[]|e] s1]; [|done].
  simpl in Hinv.
  destruct (summarise_spec sd n dump_filelists s1)
    as (d' & t & Hsum & Hmiss & Hlist).
  rewrite Hsum in Hrun. unfold ret in Hrun.
  injection Hrun as <- <- <-.
  unfold done_known in Hinv. simpl.
  rewrite (symmetric_difference_subseteq _ _ Hinv) in *.
  split_and!; try done.
  rewrite Hmiss. split.
  - intros Hz. assert (Hsz : size (known_lfns s1 ∖ done_lfns s1) = 0%nat) by lia.
    apply size_empty_inv in Hsz. intros x Hx.
    destruct (decide (x ∈ done_lfns s1)); [done|]. set_solver.
  - intros Hsub.
    assert (known_lfns s1 ∖ done_lfns s1 = ∅) as -> by set_solver.
    by rewrite size_empty.
Qed.


End Accounting.

(** ** A directory that does not exist *)

Section MissingDirectory.

Variable py_int : string -> option Z.
Variable w : world.

Lemma check_crab_directory_missing sample_dir sample_name suffix das_key
    status_file wlcg_dir wlcg_prefix job_input_file (s : acc) :
  path_exists w (crab_dir_of sample_dir sample_name suffix) = false →
  check_crab_directory py_int w sample_dir sample_name suffix das_key
    status_file wlcg_dir wlcg_prefix job_input_file s
  = (Ok tt,
     with_trace s
       (trace s ++ skip_events w (crab_dir_of sample_dir sample_name suffix))).
Proof.
  intros Hex.
  unfold check_crab_directory, bind, exists_, emit, ret, bind, skip_events.
  simpl. rewrite Hex. simpl. unfold when, with_trace.
  destruct (verbose w); simpl.
  - unfold emit. simpl. by rewrite <- app_assoc.
  - done.
Qed.

Lemma cascade_first_probe sample_dir sample_name das_key wlcg_dir wlcg_prefix
    suffix status_file (rest : list (string * string)) (s : acc) :
  extends_by [EvExists (crab_dir_of sample_dir sample_name suffix)] s
    (cascade py_int w sample_dir sample_name das_key wlcg_dir wlcg_prefix
       ((suffix, status_file) :: rest) s).2.
Proof.
  set (t0 := [EvExists (crab_dir_of sample_dir sample_name suffix)]).
  assert (Htr : triple (eq s)
    (cascade py_int w sample_dir sample_name das_key wlcg_dir wlcg_prefix
       ((suffix, status_file) :: rest)) (extends_by t0 s)).
  { unfold cascade. simpl. apply triple_bind with (extends_by t0 s); [|done|].
    - apply check_crab_directory_extends_by.
      intros s' <-. unfold exists_, bind, emit, ret. simpl.
      split_and!; try done. exists []. by rewrite app_nil_r.
    - intros _. apply cascade_extends_by. }
  by apply Htr.
Qed.

(** C5, as amended.  When the directory of an attempt does not exist,
    [check_crab_directory] returns with the three sets as they were, and the
    cascade goes on with the attempts that follow, from these sets: the
    first thing it does is to check the directory of the next attempt. *)
Theorem cascade_continues_after_missing_directory
    sample_dir sample_name das_key wlcg_dir wlcg_prefix suffix status_file
    (rest : list (string * string)) (s : acc) :
  path_exists w (crab_dir_of sample_dir sample_name suffix) = false →
  let s1 :=
    with_trace s
      (trace s ++ skip_events w (crab_dir_of sample_dir sample_name suffix)) in
  check_crab_directory py_int w sample_dir sample_name suffix das_key
    status_file wlcg_dir wlcg_prefix "job_input_files.json" s = (Ok tt, s1) ∧
  cascade py_int w sample_dir sample_name das_key wlcg_dir wlcg_prefix
    ((suffix, status_file) :: rest) s
  = cascade py_int w sample_dir sample_name das_key wlcg_dir wlcg_prefix
      rest s1 ∧
  ∀ suffix' status_file' rest',
    rest = (suffix', status_file') :: rest' →
    ∃ t,
      trace (cascade py_int w sample_dir sample_name das_key wlcg_dir
               wlcg_prefix ((suffix, status_file) :: rest) s).2
      = (trace s1 ++
         EvExists (crab_dir_of sample_dir sample_name suffix') :: t)%list.
Proof.
  intros Hex s1.
  pose proof (check_crab_directory_missing sample_dir sample_name suffix
                das_key status_file wlcg_dir wlcg_prefix
                "job_input_files.json" s Hex) as Hskip.
  fold s1 in Hskip.
  assert (Hcas :
    cascade py_int w sample_dir sample_name das_key wlcg_dir wlcg_prefix
      ((suffix, status_file) :: rest) s
    = cascade py_int w sample_dir sample_name das_key wlcg_dir wlcg_prefix
        rest s1).
  { unfold cascade at 1. simpl. unfold bind at 1. by rewrite Hskip. }
  split_and!; [done|done|].
  intros suffix' status_file' rest' ->. rewrite Hcas.
  destruct (cascade_first_probe sample_dir sample_name das_key wlcg_dir
              wlcg_prefix suffix' status_file' rest' s1)
    as (_ & _ & _ & t & Ht).
  exists t. by rewrite Ht.
Qed.

End MissingDirectory.

Lemma cascade_continues_after_missing_directory_witness :
  let s1 := with_trace Scenario.acc0 [EvExists "S/crab_S_recovery_1"] in
  path_exists (Scenario.world1 0 Scenario.files2)
    (crab_dir_of "S" "S" "recovery_1") = false ∧
  cascade Scenario.parse_int (Scenario.world1 0 Scenario.files2) "S" "S" None
    "/pnfs" "srm:" [("recovery_1", "status_1"); ("recovery_2", "status")]
    Scenario.acc0
  = cascade Scenario.parse_int (Scenario.world1 0 Scenario.files2) "S" "S"
      None "/pnfs" "srm:" [("recovery_2", "status")] s1.
Proof.
  intros s1.
  assert (H : path_exists (Scenario.world1 0 Scenario.files2)
                (crab_dir_of "S" "S" "recovery_1") = false)
    by (vm_compute; reflexivity).
  split; [exact H|].
  exact (proj1 (proj2
    (cascade_continues_after_missing_directory Scenario.parse_int
       (Scenario.world1 0 Scenario.files2) "S" "S" None "/pnfs" "srm:"
       "recovery_1" "status_1" [("recovery_2", "status")] Scenario.acc0 H))).
Defined.

(** C5, as stated, fails: with the default attempts, the first recovery
    directory missing and the second one there, the second one is checked,
    its files are loaded, its block is listed and its finished job is
    classified. *)
Lemma cascade_probes_after_missing_directory :
  let r := cascade Scenario.parse_int (Scenario.world1 0 Scenario.files2)
             "S" "S" None "/pnfs" "srm:" Scenario.attempts Scenario.acc0 in
  path_exists (Scenario.world1 0 Scenario.files2)
    (crab_dir_of "S" "S" "recovery_1") = false ∧
  r.1 = Ok tt ∧
  exists_probes (trace r.2)
  = ["S/crab_S"; "S/crab_S/job_input_files.json"; "S/status_0.json";
     "S/crab_S_recovery_1";
     "S/crab_S_recovery_2"; "S/crab_S_recovery_2/job_input_files.json";
     "S/status.json"] ∧
  remote_probes (trace r.2)
  = ["srm:/pnfs//crab_S/230101_120000/0000";
     "srm:/pnfs//crab_S_recovery_2/230102_120000/0000"] ∧
  done_lfns r.2 = {[ "A"; "C" ]}.
Proof. intros r. split_and!; vm_compute; reflexivity. Qed.

(** The end-to-end scenario with the recovery: the sample is summarised
    and the accounting holds. *)
Lemma reconcile_accounting_witness :
  let r := reconcile Scenario.parse_int (Scenario.world1 0 Scenario.files2)
             "S/" "/pnfs" "srm:" Scenario.attempts true [] in
  ∃ d, r = (Ok ("S", d), r.2) ∧
       done_lfns r.2 ⊆ known_lfns r.2 ∧
       missing d = 1 ∧
       missing_lfns d = Some (known_lfns r.2 ∖ done_lfns r.2).
Proof.
  intros r.
  assert (Hr : ∃ d, r = (Ok ("S", d), r.2)).
  { exists (match r.1 with
            | Ok (_, d) => d
            | Err _ => {| das_total := 0; total := 0; done_count := 0;
                          outputs_from_failed_jobs := 0; missing := 0;
                          total_lfns := None; done_lfns_list := None;
                          missing_lfns := None; failed_outputs := None |}
            end).
    vm_compute. reflexivity. }
  destruct Hr as [d Hd]. exists d.
  destruct (reconcile_accounting Scenario.parse_int
              (Scenario.world1 0 Scenario.files2) "S/" "/pnfs" "srm:"
              Scenario.attempts true [] "S" d r.2 Hd)
    as (Hsub & _ & Hmiss & Hlist & _).
  split_and!; [exact Hd|exact Hsub| |exact (Hlist eq_refl)].
  rewrite Hmiss.
  replace (known_lfns r.2 ∖ done_lfns r.2) with ({[ "B" ]} : gset string)
    by (vm_compute; reflexivity).
  reflexivity.
Defined.


(** The end-to-end scenario, through [main]: A is done, the output of the
    failed job 2 is recorded, B and C are missing, and the sample is
    flagged. *)
Example main_end_to_end :
  (main Scenario.parse_int (Scenario.world1 0 Scenario.files1) ["S"]
     "/pnfs" "srm:" [""] ["status_0"] true).1
  = Ok ([("S", {| das_total := -1; total := 3; done_count := 1;
                  outputs_from_failed_jobs := 1; missing := 2;
                  total_lfns := Some {[ "A"; "B"; "C" ]};
                  done_lfns_list := Some {[ "A" ]};
                  missing_lfns := Some {[ "B"; "C" ]};
                  failed_outputs :=
                    Some {[ "srm:/pnfs//crab_S/230101_120000/0000/nano_2.root" ]}
               |})],
        ["S"]).
Proof. vm_compute. reflexivity. Qed.

(** ** More on the classifier *)

Section ClassifierMore.

Implicit Types (c outs ids lfns : gset string) (jo : option (gset string)).
Implicit Types (im : gmap string (list string)) (jd : gmap string job_info).

Lemma check_finished_returned c im jd jo c' :
  check_job_outputs c im jd "finished" jo = (Returned, c') →
  ∃ lfns, gather_lfns im (relevant_ids jd "finished" jo) = Some lfns ∧
          c ∩ lfns = ∅ ∧ c' = c ∪ lfns.
Proof.
  intros Hrun.
  destruct (gather_lfns im (relevant_ids jd "finished" jo)) as [lfns|] eqn:Hg.
  - rewrite (check_finished_unfold _ _ _ _ _ Hg) in Hrun.
    destruct (decide (c ∩ lfns = ∅)); [|done].
    injection Hrun as <-. eauto.
  - unfold check_job_outputs in Hrun.
    destruct (decide ("finished" = "failed")) as [?|_]; [done|].
    destruct (decide ("finished" = "finished")) as [_|?]; [|done].
    by rewrite Hg in Hrun.
Qed.

(** X1.  When the finished pass returns, the LFNs it gathered were all new:
    the done set has grown by exactly their number, none is counted
    twice. *)
Theorem finished_pass_counts c im jd jo c' :
  check_job_outputs c im jd "finished" jo = (Returned, c') →
  ∃ lfns, gather_lfns im (relevant_ids jd "finished" jo) = Some lfns ∧
          c ## lfns ∧ c' = c ∪ lfns ∧
          size c' = (size c + size lfns)%nat.
Proof.
  intros (lfns & Hg & Hdisj & ->)%check_finished_returned.
  exists lfns. assert (c ## lfns) by set_solver.
  split_and!; [done|done|done|]. by apply size_union.
Qed.

Lemma finished_pass_counts_witness :
  check_job_outputs {[ "B" ]} Scenario.im1 Scenario.jd1 "finished"
    (Some Scenario.outs1) = (Returned, {[ "A"; "B" ]}) ∧
  size ({[ "A"; "B" ]} : gset string) = 2%nat.
Proof.
  assert (H : check_job_outputs {[ "B" ]} Scenario.im1 Scenario.jd1 "finished"
                (Some Scenario.outs1) = (Returned, {[ "A"; "B" ]}))
    by (vm_compute; reflexivity).
  split; [exact H|].
  destruct (finished_pass_counts _ _ _ _ _ H) as (lfns & Hg & _ & _ & ->).
  assert (lfns = {[ "A" ]}) as ->.
  { assert (Hg' : gather_lfns Scenario.im1
                    (relevant_ids Scenario.jd1 "finished"
                       (Some Scenario.outs1)) = Some {[ "A" ]})
      by (vm_compute; reflexivity).
    congruence. }
  vm_compute. reflexivity.
Defined.

Lemma relevant_ids_unfiltered jd state :
  relevant_ids jd state (Some ∅) = ids_in_state jd state ∧
  relevant_ids jd state None = ids_in_state jd state.
Proof.
  unfold relevant_ids. split; [|done].
  destruct (decide (size (∅ : gset string) = 0%nat)) as [_|Hn]; [done|].
  by rewrite size_empty in Hn.
Qed.

(** X2.  With an empty remote output set the finished pass does not ask
    for outputs: it ends as it does without a set, and when it returns an
    LFN is done exactly when it was done before or is an input of a job
    whose state is "finished". *)
Theorem finished_pass_without_outputs c im jd :
  check_job_outputs c im jd "finished" (Some ∅)
  = check_job_outputs c im jd "finished" None ∧
  ∀ c', check_job_outputs c im jd "finished" (Some ∅) = (Returned, c') →
    ∀ l, l ∈ c' ↔
         l ∈ c ∨ ∃ j info ls, jd !! j = Some info ∧ State info = "finished" ∧
                             im !! j = Some ls ∧ l ∈ ls.
Proof.
  destruct (relevant_ids_unfiltered jd "finished") as [He Hn].
  split.
  - unfold check_job_outputs. by rewrite He, Hn.
  - intros c' (lfns & Hg & _ & ->)%check_finished_returned l.
    rewrite elem_of_union, (elem_of_gather_lfns _ _ _ _ Hg), He.
    setoid_rewrite elem_of_ids_in_state. naive_solver.
Qed.

(** X3.  The failed pass is idempotent: run again on its own result, with
    the same status and the same remote output set, it returns the same
    collector. *)
Theorem failed_pass_idempotent c im jd outs :
  check_job_outputs (check_job_outputs c im jd "failed" (Some outs)).2
    im jd "failed" (Some outs)
  = check_job_outputs c im jd "failed" (Some outs).
Proof.
  unfold check_job_outputs.
  destruct (decide ("failed" = "failed")) as [_|?]; [|done].
  simpl. f_equal. set_solver.
Qed.

End ClassifierMore.

(** ** Strings *)

Section Strings.

Implicit Types (a b c s pre suf : string).

Lemma string_app_cons (x : ascii) a b : String x a +:+ b = String x (a +:+ b).
Proof. reflexivity. Qed.

Lemma string_app_nil_l a : "" +:+ a = a.
Proof. reflexivity. Qed.

Ltac string_ind a :=
  induction a as [|? a ?];
  rewrite ?string_app_cons, ?string_app_nil_l; simpl.

Lemma string_app_assoc a b c : (a +:+ b) +:+ c = a +:+ (b +:+ c).
Proof. string_ind a; [done|]. by f_equal. Qed.

Lemma string_app_nil_r a : a +:+ "" = a.
Proof. string_ind a; [done|]. by f_equal. Qed.

Lemma string_length_app a b :
  String.length (a +:+ b) = (String.length a + String.length b)%nat.
Proof. string_ind a; [done|]. by f_equal. Qed.

Lemma list_ascii_app a b :
  list_ascii_of_string (a +:+ b)
  = (list_ascii_of_string a ++ list_ascii_of_string b)%list.
Proof. string_ind a; [done|]. by f_equal. Qed.

Lemma list_ascii_inj a b :
  list_ascii_of_string a = list_ascii_of_string b → a = b.
Proof.
  intros H. rewrite <- (string_of_list_ascii_of_string a),
    <- (string_of_list_ascii_of_string b). by rewrite H.
Qed.

Lemma string_app_inv_tail a b c : a +:+ c = b +:+ c → a = b.
Proof.
  intros H. apply list_ascii_inj.
  apply (f_equal list_ascii_of_string) in H.
  rewrite !list_ascii_app in H. by apply app_inv_tail in H.
Qed.

Lemma substring_full s : substring 0 (String.length s) s = s.
Proof. induction s as [|x s IH]; simpl; [done|]. by f_equal. Qed.

Lemma substring_skip pre s m :
  substring (String.length pre) m (pre +:+ s) = substring 0 m s.
Proof. string_ind pre; done. Qed.

Lemma substring_split s i :
  (i <= String.length s)%nat →
  s = substring 0 i s +:+ substring i (String.length s - i) s.
Proof.
  revert i. induction s as [|x s IH]; intros i Hi; simpl in *.
  - by destruct i.
  - destruct i as [|i]; simpl.
    + by rewrite string_app_nil_l, substring_full.
    + rewrite string_app_cons. f_equal. apply IH. lia.
Qed.

(** [s.endswith(suf)] holds exactly when [s] is something followed by
    [suf]. *)
Lemma endswith_spec s suf :
  PyStr.endswith s suf = true ↔ ∃ pre, s = pre +:+ suf.
Proof.
  unfold PyStr.endswith. rewrite andb_true_iff, Nat.leb_le, String.eqb_eq.
  split.
  - intros [Hle Hsub].
    exists (substring 0 (String.length s - String.length suf) s).
    pose proof (substring_split s (String.length s - String.length suf)) as Hs.
    replace (String.length s - (String.length s - String.length suf))%nat
      with (String.length suf) in Hs by lia.
    rewrite Hsub in Hs. apply Hs. lia.
  - intros [pre ->]. rewrite string_length_app. split; [lia|].
    replace (String.length pre + String.length suf - String.length suf)%nat
      with (String.length pre) by lia.
    by rewrite substring_skip, substring_full.
Qed.

Lemma has_char_app (ch : ascii) a b :
  has_char ch (a +:+ b) = has_char ch a || has_char ch b.
Proof. string_ind a; [done|]. rewrite <- orb_assoc. by f_equal. Qed.

Lemma has_char_split (ch : ascii) s :
  has_char ch s = true →
  ∃ a b, s = a +:+ String ch b ∧ has_char ch a = false.
Proof.
  induction s as [|x s IH]; simpl; [done|].
  destruct (Ascii.eqb_spec x ch) as [->|Hne]; simpl.
  - intros _. by exists "", s.
  - intros (a & b & -> & Ha)%IH. exists (String x a), b.
    rewrite string_app_cons. simpl.
    split; [done|]. destruct (Ascii.eqb_spec x ch); done.
Qed.

Lemma after_last_app (ch : ascii) a b :
  has_char ch b = false → after_last ch (a +:+ String ch b) = b.
Proof.
  intros Hb. string_ind a.
  - by rewrite Hb, Ascii.eqb_refl.
  - rewrite has_char_app. simpl. rewrite Ascii.eqb_refl, orb_true_r. done.
Qed.

Lemma nano_name_after_last pre j :
  has_char "_" j = false →
  after_last "_" (pre +:+ nano_name j) = j +:+ ".root".
Proof.
  intros Hj. unfold nano_name.
  change ("nano_" +:+ j +:+ ".root")
    with ("nano" +:+ String "_" (j +:+ ".root")).
  rewrite <- string_app_assoc. apply after_last_app.
  rewrite has_char_app, Hj. done.
Qed.

(** X4.  The output name tells the jobs apart: for job ids without an
    underscore, a path that ends with the output name of the job [j'] ends
    with the output name of the job [j] only when [j] is [j']. *)
Theorem output_name_identifies_job pre j j' :
  has_char "_" j = false → has_char "_" j' = false →
  PyStr.endswith (pre +:+ nano_name j') (nano_name j) = true →
  j = j'.
Proof.
  intros Hj Hj' [q Hq]%endswith_spec.
  apply (f_equal (after_last "_")) in Hq.
  rewrite !nano_name_after_last in Hq by done.
  symmetry. by apply string_app_inv_tail in Hq.
Qed.

Lemma output_name_identifies_job_witness :
  has_char "_" "12" = false ∧
  PyStr.endswith ("srm:/pnfs/0000/" +:+ nano_name "12") (nano_name "12")
  = true ∧
  "12" = "12".
Proof.
  assert (H1 : has_char "_" "12" = false) by reflexivity.
  assert (H2 : PyStr.endswith ("srm:/pnfs/0000/" +:+ nano_name "12")
                 (nano_name "12") = true) by reflexivity.
  split_and!; [exact H1|exact H2|].
  exact (output_name_identifies_job "srm:/pnfs/0000/" "12" "12" H1 H1 H2).
Defined.

(** X5.  A suffix names the same crab directory with or without its
    leading underscore, and the name is [crab_], the sample name, an
    underscore and the suffix; without a suffix it is [crab_] and the
    sample name. *)
Theorem crab_dirname_underscore sample_name suffix :
  suffix ≠ "" → PyStr.startswith suffix "_" = false →
  crab_dirname_of sample_name ("_" +:+ suffix)
  = crab_dirname_of sample_name suffix ∧
  crab_dirname_of sample_name suffix
  = "crab_" +:+ sample_name +:+ "_" +:+ suffix ∧
  crab_dirname_of sample_name "" = "crab_" +:+ sample_name.
Proof.
  intros Hne Hst. unfold crab_dirname_of.
  rewrite Hst. destruct (String.eqb_spec suffix "") as [?|_]; [done|].
  rewrite !string_app_cons, !string_app_nil_l.
  destruct suffix as [|x suffix]; [done|]. simpl.
  by rewrite string_app_nil_r.
Qed.

Lemma crab_dirname_underscore_witness :
  "recovery_1" ≠ "" ∧ PyStr.startswith "recovery_1" "_" = false ∧
  crab_dirname_of "S" "_recovery_1" = crab_dirname_of "S" "recovery_1".
Proof.
  assert (H1 : "recovery_1" ≠ "") by discriminate.
  assert (H2 : PyStr.startswith "recovery_1" "_" = false) by reflexivity.
  split_and!; [exact H1|exact H2|].
  exact (proj1 (crab_dirname_underscore "S" "recovery_1" H1 H2)).
Defined.

End Strings.

(** ** The campaign name *)

Section Campaign.

Implicit Types (a b c s cur : string) (sep : ascii).

Lemma rev_app_spec s acc :
  String.rev_app s acc = String.rev_app s "" +:+ acc.
Proof.
  revert acc. induction s as [|x s IH]; intros acc; simpl; [done|].
  rewrite (IH (String x acc)), (IH (String x "")).
  by rewrite string_app_assoc.
Qed.

Lemma rev_cons (x : ascii) cur :
  String.rev (String x cur) = String.rev cur +:+ String x "".
Proof. unfold String.rev. simpl. apply rev_app_spec. Qed.

Lemma split_aux_no_sep sep cur s :
  has_char sep s = false →
  PyStr.split_aux sep cur s = [String.rev cur +:+ s].
Proof.
  revert cur. induction s as [|x s IH]; intros cur; simpl.
  - intros _. by rewrite string_app_nil_r.
  - destruct (Ascii.eqb x sep); simpl; [done|]. intros Hs.
    rewrite (IH _ Hs), rev_cons, string_app_assoc. done.
Qed.

Lemma split_aux_sep sep cur a b :
  has_char sep a = false →
  PyStr.split_aux sep cur (a +:+ String sep b)
  = (String.rev cur +:+ a) :: PyStr.split_aux sep "" b.
Proof.
  revert cur. induction a as [|x a IH]; intros cur;
    rewrite ?string_app_cons, ?string_app_nil_l; simpl.
  - intros _. by rewrite Ascii.eqb_refl, string_app_nil_r.
  - destruct (Ascii.eqb x sep); simpl; [done|]. intros Ha.
    rewrite (IH _ Ha), rev_cons, string_app_assoc. done.
Qed.

Lemma split_no_sep sep s : has_char sep s = false → PyStr.split sep s = [s].
Proof. intros H. unfold PyStr.split. by rewrite split_aux_no_sep. Qed.

Lemma split_sep sep a b :
  has_char sep a = false →
  PyStr.split sep (a +:+ String sep b) = a :: PyStr.split sep b.
Proof. intros H. unfold PyStr.split. by rewrite split_aux_sep. Qed.

Lemma split_head sep s :
  ∃ h t, PyStr.split sep s = h :: t.
Proof.
  destruct (has_char sep s) eqn:Hs.
  - apply has_char_split in Hs as (a & b & -> & Ha).
    rewrite split_sep by done. eauto.
  - rewrite split_no_sep by done. eauto.
Qed.

Lemma campaign_of_fields :
  (∀ k, campaign_of (Some k) = Err IndexError ↔ has_char "/" k = false) ∧
  (∀ a b, has_char "/" a = false → has_char "/" b = false →
          campaign_of (Some (a +:+ "/" +:+ b)) = Ok b) ∧
  (∀ a b c, has_char "/" a = false → has_char "/" b = false →
            campaign_of (Some (a +:+ "/" +:+ b +:+ "/" +:+ c)) = Ok b).
Proof.
  split_and!.
  - intros k. unfold campaign_of.
    destruct (has_char "/" k) eqn:Hk.
    + apply has_char_split in Hk as (a & b & -> & Ha).
      rewrite split_sep by done.
      destruct (split_head "/" b) as (h & t & ->). simpl. done.
    + by rewrite split_no_sep.
  - intros a b Ha Hb. unfold campaign_of.
    change (a +:+ "/" +:+ b) with (a +:+ String "/" b).
    by rewrite split_sep, split_no_sep.
  - intros a b c Ha Hb. unfold campaign_of.
    change (a +:+ "/" +:+ b +:+ "/" +:+ c)
      with (a +:+ String "/" (b +:+ String "/" c)).
    rewrite !split_sep by done. done.
Qed.

(** With a key, [get_campaign_name] ends as [campaign_of] says and leaves
    the state as it is; without one it returns the empty string and warns
    from verbosity 1 on. *)
Lemma get_campaign_name_run (w : world) (das_key : option string) (s : acc) :
  get_campaign_name w das_key s
  = (campaign_of das_key,
     with_trace s
       (trace s ++
        if bool_decide (das_key = None) && verbose w
        then [EvPrint ("WARNING: Unable to load campaign name from das key " +:+
                       "of type '<class 'NoneType'>'")]
        else [])).
Proof.
  destruct s as [kn d f tr]. unfold get_campaign_name, campaign_of, with_trace.
  destruct das_key as [k|]; simpl.
  - destruct (PyStr.split "/" k !! 1%nat); unfold ret, raise;
      by rewrite app_nil_r.
  - destruct (verbose w); simpl; [done|]. unfold ret. by rewrite app_nil_r.
Qed.

(** X6.  The campaign name is the second field of the DAS key, the fields
    being separated by slashes: without a key it is the empty string, with
    a warning from verbosity 1 on and none below, and for a key that holds
    no slash the call raises [IndexError], and only then; with a key
    nothing is printed. *)
Theorem get_campaign_name_fields (w : world) (s : acc) :
  (get_campaign_name w None s).1 = Ok "" ∧
  (printed (trace (get_campaign_name w None s).2) = printed (trace s)
   ↔ verbosity w < 1) ∧
  (∀ k, get_campaign_name w (Some k) s = (Err IndexError, s)
        ↔ has_char "/" k = false) ∧
  (∀ a b, has_char "/" a = false → has_char "/" b = false →
          get_campaign_name w (Some (a +:+ "/" +:+ b)) s = (Ok b, s)) ∧
  (∀ a b c, has_char "/" a = false → has_char "/" b = false →
            get_campaign_name w (Some (a +:+ "/" +:+ b +:+ "/" +:+ c)) s
            = (Ok b, s)).
Proof.
  destruct campaign_of_fields as (H1 & H2 & H3).
  assert (Hsome : ∀ k, get_campaign_name w (Some k) s
                       = (campaign_of (Some k), s)).
  { intros k. rewrite get_campaign_name_run. simpl. destruct s.
    unfold with_trace. simpl. by rewrite app_nil_r. }
  split_and!.
  - by rewrite get_campaign_name_run.
  - rewrite get_campaign_name_run. simpl. rewrite printed_app.
    unfold verbose. destruct (Z.leb_spec 1 (verbosity w)); simpl.
    + split; [|lia]. intros Heq.
      apply (f_equal length) in Heq. rewrite length_app in Heq.
      simpl in Heq. lia.
    + by rewrite app_nil_r.
  - intros k. rewrite Hsome, <- H1. split; [congruence|by intros ->].
  - intros a b Ha Hb. by rewrite Hsome, H2.
  - intros a b c Ha Hb. by rewrite Hsome, H3.
Qed.

End Campaign.

(** ** The total of the catalogue *)

Lemma elem_of_das_values (das_infos : list das_record) (relevant_info : string)
    (v : Z) :
  v ∈ das_values das_infos relevant_info ↔ das_carried das_infos relevant_info v.
Proof.
  unfold das_values, das_carried. rewrite list_elem_of_In, in_flat_map. split.
  - intros (x & Hx & Hv). destruct (dataset x) as [ys|] eqn:Hd; [|done].
    apply in_flat_map in Hv as (y & Hy & Hv).
    destruct (y !! relevant_info) as [u|] eqn:Hu; [|done].
    destruct Hv as [<-|[]]. exists x, ys, y.
    by rewrite !list_elem_of_In.
  - intros (x & ys & y & Hx & Hd & Hy & Hu). exists x.
    rewrite <- list_elem_of_In. split; [done|]. rewrite Hd.
    apply in_flat_map. exists y. rewrite <- list_elem_of_In.
    split; [done|]. rewrite Hu. by left.
Qed.

(** X7.  [get_das_information] raises [ValueError] for a kind of
    information that is not allowed, whatever the query answers.  For an
    allowed kind it returns the default when the answer cannot be parsed,
    when no entry carries the information and when two entries carry
    different values; it returns the value when the entries that carry it
    agree. *)
Theorem get_das_information_sentinel (relevant_info : string) (default : Z) :
  (relevant_info ∉ allowed_modes →
   ∀ das_infos,
     get_das_information das_infos relevant_info default = Err ValueError) ∧
  (relevant_info ∈ allowed_modes →
   get_das_information None relevant_info default = Ok default ∧
   ∀ das_infos,
     ((∀ v, ¬ das_carried das_infos relevant_info v) →
      get_das_information (Some das_infos) relevant_info default
      = Ok default) ∧
     (∀ v, das_carried das_infos relevant_info v →
           (∀ u, das_carried das_infos relevant_info u → u = v) →
      get_das_information (Some das_infos) relevant_info default = Ok v) ∧
     (∀ u v, das_carried das_infos relevant_info u →
             das_carried das_infos relevant_info v → u ≠ v →
      get_das_information (Some das_infos) relevant_info default
      = Ok default)).
Proof.
  unfold get_das_information. split.
  - intros Hn das_infos. by rewrite bool_decide_eq_false_2.
  - intros Hin. rewrite bool_decide_eq_true_2 by done. simpl.
    split; [done|]. intros das_infos.
    set (vals := list_to_set (C:=gset Z) (das_values das_infos relevant_info)).
    assert (Hvals : ∀ v, v ∈ vals ↔ das_carried das_infos relevant_info v).
    { intros v. unfold vals. rewrite elem_of_list_to_set.
      apply elem_of_das_values. }
    split_and!.
    + intros Hnone. assert (vals = ∅) as ->.
      { apply set_eq. intros v. rewrite Hvals. set_solver. }
      by rewrite elements_empty.
    + intros v Hv Hall. assert (vals = {[ v ]}) as ->.
      { apply set_eq. intros u. rewrite Hvals, elem_of_singleton.
        split; [apply Hall|by intros ->]. }
      by rewrite elements_singleton.
    + intros u v Hu Hv Hne.
      destruct (elements vals) as [|z [|z' l]] eqn:He; [done| |done].
      apply Hvals, elem_of_elements in Hu, Hv. rewrite He in Hu, Hv.
      apply list_elem_of_singleton in Hu, Hv. congruence.
Qed.

Lemma get_das_information_sentinel_witness :
  let agree : list das_record :=
    [ {| dataset := None |};
      {| dataset := Some [ {[ "num_file" := 12; "num_event" := 500 ]} ] |};
      {| dataset := Some [ {[ "num_file" := 12 ]}; {[ "name" := 0 ]} ] |} ] in
  "num_file" ∈ allowed_modes ∧
  get_das_information (Some agree) "num_file" (-1) = Ok 12.
Proof.
  intros agree.
  assert (Hin : "num_file" ∈ allowed_modes) by (vm_compute; set_solver).
  split; [exact Hin|].
  destruct (get_das_information_sentinel "num_file" (-1)) as [_ H].
  destruct (H Hin) as [_ H'].
  apply (proj1 (proj2 (H' agree))).
  - apply elem_of_das_values. vm_compute. set_solver.
  - intros u Hu%elem_of_das_values. vm_compute in Hu. set_solver.
Defined.

(** ** The status file *)

Section Status.

Variable w : world.

(** X8.  The status is looked up in the sample directory, whatever the crab
    directory is: first under the name given, then as [status.json].  The
    call raises exactly when neither file exists, the exception is
    [NotImplementedError], and the three sets are never touched. *)
Theorem get_status_fallback (sample_dir status_file crab_dir : string)
    (s : acc) :
  let status_path := PosixPath.join sample_dir (status_file +:+ ".json") in
  let backup_status_path := PosixPath.join sample_dir "status.json" in
  let r := get_status w sample_dir status_file crab_dir s in
  (∀ crab_dir', get_status w sample_dir status_file crab_dir' s = r) ∧
  (path_exists w status_path = true →
   r.1 = Ok (load_status w status_path)) ∧
  (path_exists w status_path = false →
   path_exists w backup_status_path = true →
   r.1 = Ok (load_status w backup_status_path)) ∧
  ((∃ e, r.1 = Err e) ↔
   path_exists w status_path = false ∧
   path_exists w backup_status_path = false) ∧
  (∀ e, r.1 = Err e → e = NotImplementedError) ∧
  known_lfns r.2 = known_lfns s ∧ done_lfns r.2 = done_lfns s ∧
  failed_job_outputs r.2 = failed_job_outputs s.
Proof.
  intros status_path backup_status_path r. subst r.
  unfold get_status, bind, exists_, emit, ret, raise.
  fold status_path backup_status_path. simpl.
  destruct (path_exists w status_path); simpl;
    [|destruct (path_exists w backup_status_path); simpl];
    split_and!; try done; try (by intros e [=]).
  - split; [by intros [e [=]]|by intros [[=] _]].
  - split; [by intros [e [=]]|by intros [_ [=]]].
  - split; [done|]. intros _. by exists NotImplementedError.
Qed.

End Status.

(** ** The largest job id *)

Section MaxJobid.

Variable py_int : string -> option Z.

Lemma max_jobid_Ok_inv (jd : gmap string job_info) (m : Z) :
  max_jobid py_int jd = Ok m →
  (∃ k, k ∈ dom jd ∧ py_int k = Some m) ∧
  (∀ k, k ∈ dom jd → ∃ z, py_int k = Some z ∧ z <= m).
Proof.
  unfold max_jobid.
  destruct (mapM py_int (elements (dom jd))) as [[|z zs]|] eqn:HM; try done.
  intros [= <-]. apply mapM_Some in HM.
  destruct (fold_max_spec zs z) as [Hin Hub]. simpl in Hin, Hub.
  split.
  - apply list_elem_of_lookup in Hin as [i Hi].
    destruct (Forall2_lookup_r _ _ _ _ _ HM Hi) as (k & Hk & Hkm).
    exists k. split; [|done].
    apply elem_of_elements, list_elem_of_lookup. eauto.
  - intros k Hk.
    apply elem_of_elements, list_elem_of_lookup in Hk as [i Hi].
    destruct (Forall2_lookup_l _ _ _ _ _ HM Hi) as (y & Hy & Hky).
    exists y. split; [done|]. rewrite Forall_forall in Hub. apply Hub.
    apply list_elem_of_lookup. eauto.
Qed.

(** X9.  The largest job id is found exactly when the status has jobs and
    all their ids are integers, and it is then one of the ids and no id is
    larger; with no job, or with an id that is no integer, the call raises
    [ValueError], and it raises nothing else. *)
Theorem max_jobid_total (jd : gmap string job_info) :
  (∀ m, max_jobid py_int jd = Ok m ↔
        (∃ k, k ∈ dom jd ∧ py_int k = Some m) ∧
        (∀ k, k ∈ dom jd → ∃ z, py_int k = Some z ∧ z <= m)) ∧
  (max_jobid py_int jd = Err ValueError ↔
   jd = ∅ ∨ ∃ k, k ∈ dom jd ∧ py_int k = None) ∧
  (∀ e, max_jobid py_int jd = Err e → e = ValueError).
Proof.
  split_and!.
  - intros m. split; [apply max_jobid_Ok_inv|].
    intros [H1 H2]. by apply max_jobid_spec.
  - unfold max_jobid.
    destruct (mapM py_int (elements (dom jd))) as [[|z zs]|] eqn:HM.
    + split; [|done]. intros _. left.
      apply mapM_Some, Forall2_nil_inv_r in HM.
      apply elements_empty_inv in HM. apply dom_empty_inv_L.
      by unfold_leibniz.
    + split; [done|]. apply mapM_Some in HM. intros [->|(k & Hk & Hnone)].
      * rewrite dom_empty_L, elements_empty in HM. by inversion HM.
      * apply elem_of_elements, list_elem_of_lookup in Hk as [i Hi].
        destruct (Forall2_lookup_l _ _ _ _ _ HM Hi) as (y & _ & ?).
        congruence.
    + split; [|done]. intros _. right.
      apply mapM_None, Exists_exists in HM as (k & Hk & Hnone).
      exists k. by rewrite <- elem_of_elements.
  - intros e. unfold max_jobid.
    destruct (mapM py_int (elements (dom jd))) as [[|z zs]|]; congruence.
Qed.

End MaxJobid.

(** ** What is found on the storage element *)

Section Listing.

Variable py_int : string -> option Z.
Variable w : world.

Lemma load_remote_output_run (wlcg_path : string) (s : acc) :
  ∃ t, load_remote_output w wlcg_path s
       = (Ok (listed w wlcg_path), with_trace s (trace s ++ t)%list).
Proof.
  destruct s as [k d f tr].
  unfold load_remote_output, try_listdir, listed, bind, emit, ret, when,
    embed, emit, verbose, with_trace.
  simpl. destruct (gfal2 w); simpl.
  - destruct (creat_context w); simpl;
      [destruct (listdir w wlcg_path) as [fl|]; simpl|];
      try (destruct (1 <=? verbosity w); simpl);
      eexists; rewrite <- ?app_assoc; reflexivity.
  - eexists. rewrite <- ?app_assoc. reflexivity.
Qed.

Lemma load_blocks_run (tmpl : string) (blocks : list nat)
    (outs : gset string) (s : acc) :
  ∃ t, load_blocks w tmpl blocks outs s
       = (Ok (outs ∪
              list_to_set
                (flat_map
                   (fun i => listed w (PosixPath.join tmpl (PyStr.fmt_04d i)))
                   blocks)),
          with_trace s (trace s ++ t)%list).
Proof.
  revert outs s. induction blocks as [|i blocks IH]; intros outs s; simpl.
  - exists []. destruct s. unfold ret, with_trace. simpl.
    rewrite app_nil_r. do 2 f_equal. set_solver.
  - unfold bind.
    destruct (load_remote_output_run
                (PosixPath.join tmpl (PyStr.fmt_04d i)) s) as [t1 ->].
    destruct (IH (outs ∪ list_to_set
                    (listed w (PosixPath.join tmpl (PyStr.fmt_04d i))))
                (with_trace s (trace s ++ t1)%list)) as [t2 ->].
    exists (t1 ++ t2)%list. unfold with_trace. simpl.
    rewrite app_assoc, list_to_set_app_L. do 2 f_equal. set_solver.
Qed.

(** The loop over the blocks returns the set [remote_files]. *)
Lemma load_job_outputs_run (tmpl : string) (jd : gmap string job_info)
    (m : Z) (s : acc) :
  max_jobid py_int jd = Ok m →
  ∃ t, load_job_outputs py_int w tmpl jd s
       = (Ok (remote_files w tmpl m), with_trace s (trace s ++ t)%list).
Proof.
  intros Hm. unfold load_job_outputs, bind. rewrite Hm. simpl.
  destruct (load_blocks_run tmpl (block_range m) ∅ s) as [t ->].
  exists t. unfold remote_files. do 2 f_equal. set_solver.
Qed.

Lemma elem_of_listed (wlcg_path p : string) :
  p ∈ listed w wlcg_path ↔
  gfal2 w = true ∧ creat_context w = true ∧
  ∃ fl x, listdir w wlcg_path = Some fl ∧ x ∈ fl ∧
          p = PosixPath.join wlcg_path x.
Proof.
  unfold listed.
  destruct (gfal2 w), (creat_context w); simpl;
    try (rewrite elem_of_nil; naive_solver).
  destruct (listdir w wlcg_path) as [fl|].
  - rewrite list_elem_of_fmap. naive_solver.
  - rewrite elem_of_nil. naive_solver.
Qed.

Lemma elem_of_remote_files (tmpl : string) (m : Z) (p : string) :
  p ∈ remote_files w tmpl m ↔
  gfal2 w = true ∧ creat_context w = true ∧
  ∃ i fl x, i ∈ block_range m ∧
    listdir w (PosixPath.join tmpl (PyStr.fmt_04d i)) = Some fl ∧
    x ∈ fl ∧
    p = PosixPath.join (PosixPath.join tmpl (PyStr.fmt_04d i)) x.
Proof.
  unfold remote_files.
  rewrite elem_of_list_to_set, list_elem_of_In, in_flat_map.
  setoid_rewrite <- list_elem_of_In. setoid_rewrite elem_of_listed.
  naive_solver.
Qed.

Lemma load_job_outputs_files (tmpl : string) (jd : gmap string job_info)
    (m : Z) (s : acc) :
  max_jobid py_int jd = Ok m →
  ∃ outs, (load_job_outputs py_int w tmpl jd s).1 = Ok outs ∧
    (gfal2 w = false ∨ creat_context w = false → outs = ∅) ∧
    ∀ p, p ∈ outs ↔
      gfal2 w = true ∧ creat_context w = true ∧
      ∃ i fl x, i ∈ block_range m ∧
        listdir w (PosixPath.join tmpl (PyStr.fmt_04d i)) = Some fl ∧
        x ∈ fl ∧
        p = PosixPath.join (PosixPath.join tmpl (PyStr.fmt_04d i)) x.
Proof.
  intros Hm. destruct (load_job_outputs_run tmpl jd m s Hm) as [t Hrun].
  exists (remote_files w tmpl m). rewrite Hrun. split; [done|].
  split; [|apply elem_of_remote_files].
  intros Hg. apply set_eq. intros p. rewrite elem_of_remote_files.
  split; [|set_solver]. intros (? & ? & _). destruct Hg; congruence.
Qed.

(** X10.  The outputs of an attempt are those of all its blocks that can be
    listed: when the largest job id is [m], the set loaded holds exactly the
    paths made of a block directory of [block_range m] and of a file name
    that the listing of this directory gives.  A block that cannot be listed
    adds nothing and does not make the call raise; without [gfal2], or
    without a context, the set is empty. *)
Theorem load_job_outputs_content (tmpl : string) (jd : gmap string job_info)
    (m : Z) (s : acc) :
  max_jobid py_int jd = Ok m →
  ∃ outs, (load_job_outputs py_int w tmpl jd s).1 = Ok outs ∧
    (gfal2 w = false ∨ creat_context w = false → outs = ∅) ∧
    ∀ p, p ∈ outs ↔
      gfal2 w = true ∧ creat_context w = true ∧
      ∃ i fl x, i ∈ block_range m ∧
        listdir w (PosixPath.join tmpl (PyStr.fmt_04d i)) = Some fl ∧
        x ∈ fl ∧
        p = PosixPath.join (PosixPath.join tmpl (PyStr.fmt_04d i)) x.
Proof. apply load_job_outputs_files. Qed.

End Listing.

Lemma load_job_outputs_content_witness :
  max_jobid Scenario.parse_int Scenario.jd1 = Ok 3 ∧
  (load_job_outputs Scenario.parse_int (Scenario.world1 0 [])
     "srm:/pnfs//crab_S/230101_120000" Scenario.jd1 Scenario.acc0).1
  = Ok Scenario.outs1.
Proof.
  assert (H : max_jobid Scenario.parse_int Scenario.jd1 = Ok 3)
    by (vm_compute; reflexivity).
  split; [exact H|].
  destruct (load_job_outputs_content Scenario.parse_int
              (Scenario.world1 0 []) "srm:/pnfs//crab_S/230101_120000"
              Scenario.jd1 3 Scenario.acc0 H) as (outs & Hok & _).
  rewrite Hok. vm_compute in Hok. injection Hok as <-.
  vm_compute. reflexivity.
Defined.

(** ** The course of one attempt *)

Section Attempt.

Variable py_int : string -> option Z.
Variable w : world.

Implicit Types (im : gmap string (list string)) (jd : gmap string job_info).

Lemma quiet_nil : quiet [].
Proof. done. Qed.

Lemma quiet_app t1 t2 : quiet t1 → quiet t2 → quiet (t1 ++ t2).
Proof.
  intros [H1 H2] [H3 H4]. split.
  - by rewrite remote_probes_app, H1, H3.
  - by rewrite listdir_calls_app, H2, H4.
Qed.

Lemma grown_to_grown_to s K t K' t' :
  grown_to (grown_to s K t) K' t' = grown_to s K' (t ++ t').
Proof. unfold grown_to. simpl. by rewrite app_assoc. Qed.

Lemma update_known_run crab_dir flat (s : acc) :
  ∃ t, quiet t ∧
       update_known w crab_dir flat s
       = (Ok tt, grown_to s (known_lfns s ∪ flat) t).
Proof.
  destruct s as [k d f tr].
  unfold update_known, bind, get_known, when, set_known, ret, embed, emit,
    grown_to.
  simpl. case_bool_decide as Hk; simpl.
  - apply size_zero_empty in Hk. subst k.
    destruct (decide (size (flat ∖ (∅ ∪ flat)) ≠ 0%nat)) as [Hu|Hu].
    + destruct Hu. apply size_zero_empty. set_solver.
    + exists []. by rewrite app_nil_r.
  - destruct (decide (size (flat ∖ k) ≠ 0%nat)) as [Hu|Hu].
    + destruct (decide (verbosity w = 0)); simpl.
      * exists []. by rewrite app_nil_r.
      * by exists [EvEmbed].
    + apply difference_size_zero in Hu. exists []. rewrite app_nil_r.
      split; [done|]. do 2 f_equal. set_solver.
Qed.

Lemma get_status_run sample_dir status_file crab_dir (s : acc) :
  let status_path := PosixPath.join sample_dir (status_file +:+ ".json") in
  let backup_status_path := PosixPath.join sample_dir "status.json" in
  ∃ t, quiet t ∧
       get_status w sample_dir status_file crab_dir s
       = (if path_exists w status_path then Ok (load_status w status_path)
          else if path_exists w backup_status_path
               then Ok (load_status w backup_status_path)
               else Err NotImplementedError,
          grown_to s (known_lfns s) t).
Proof.
  intros status_path backup_status_path. destruct s as [k d f tr].
  unfold get_status, bind, exists_, emit, ret, raise, grown_to.
  fold status_path backup_status_path. simpl.
  destruct (path_exists w status_path); simpl;
    [|destruct (path_exists w backup_status_path); simpl];
    eexists; (split; [|by rewrite <- ?app_assoc]); done.
Qed.

Lemma quiet_run_ret {A} (a : A) : quiet_run (ret a) (Ok a).
Proof.
  intros s. exists []. split; [done|]. destruct s. unfold ret, grown_to.
  simpl. by rewrite app_nil_r.
Qed.

Lemma quiet_run_raise {A} (e : exn) : quiet_run (raise (A:=A) e) (Err e).
Proof.
  intros s. exists []. split; [done|]. destruct s. unfold raise, grown_to.
  simpl. by rewrite app_nil_r.
Qed.

Lemma quiet_run_exists (path : string) :
  quiet_run (exists_ w path) (Ok (path_exists w path)).
Proof. intros s. by exists [EvExists path]. Qed.

Lemma quiet_run_print (b : bool) (msg : string) :
  quiet_run (when b (emit (EvPrint msg))) (Ok tt).
Proof.
  destruct b; simpl; [|apply quiet_run_ret]. intros s. by exists [EvPrint msg].
Qed.

Lemma quiet_run_get_job_inputs crab_dir job_input_file :
  let path := PosixPath.join crab_dir job_input_file in
  quiet_run (get_job_inputs w crab_dir job_input_file)
    (Ok (if path_exists w path then Some (load_input_map w path) else None)).
Proof.
  intros path s. destruct s as [k d f tr].
  unfold get_job_inputs, bind, exists_, emit, ret, grown_to. fold path. simpl.
  destruct (path_exists w path); simpl;
    eexists; (split; [|by rewrite <- ?app_assoc]); done.
Qed.

Lemma quiet_run_get_status sample_dir status_file crab_dir :
  let status_path := PosixPath.join sample_dir (status_file +:+ ".json") in
  let backup_status_path := PosixPath.join sample_dir "status.json" in
  quiet_run (get_status w sample_dir status_file crab_dir)
    (if path_exists w status_path then Ok (load_status w status_path)
     else if path_exists w backup_status_path
          then Ok (load_status w backup_status_path)
          else Err NotImplementedError).
Proof. intros ?? s. apply get_status_run. Qed.

Lemma quiet_run_lift_outcome (o : outcome) :
  quiet_run (lift_outcome o)
    (match o with Returned => Ok tt | Raised e => Err e end).
Proof. destruct o; [apply quiet_run_ret|apply quiet_run_raise]. Qed.

Lemma quiet_run_lift_result {A} (r : result A) : quiet_run (lift_result r) r.
Proof. destruct r; [apply quiet_run_ret|apply quiet_run_raise]. Qed.

Lemma bind_quiet_run {A B} (m : M A) (k : A -> M B) (r : result A)
    (s : acc) K t :
  quiet_run m r → quiet t →
  ∃ t', quiet t' ∧
    bind m k (grown_to s K t)
    = match r with
      | Ok a => k a (grown_to s K t')
      | Err e => (Err e, grown_to s K t')
      end.
Proof.
  intros Hm Ht. destruct (Hm (grown_to s K t)) as (t1 & Ht1 & Hrun).
  exists (t ++ t1)%list. split; [by apply quiet_app|].
  unfold bind. rewrite Hrun, grown_to_grown_to. simpl. by destruct r.
Qed.

Lemma quiet_run_final {A} (m : M A) (r : result A) (s : acc) K t :
  quiet_run m r → quiet t →
  ∃ t', quiet t' ∧ m (grown_to s K t) = (r, grown_to s K t').
Proof.
  intros Hm Ht. destruct (Hm (grown_to s K t)) as (t1 & Ht1 & Hrun).
  exists (t ++ t1)%list. split; [by apply quiet_app|].
  by rewrite Hrun, grown_to_grown_to.
Qed.

Lemma quiet_run_load_job_outputs_err tmpl jd (e : exn) :
  max_jobid py_int jd = Err e →
  quiet_run (load_job_outputs py_int w tmpl jd) (Err e).
Proof.
  intros Hmax s. exists []. split; [done|].
  unfold load_job_outputs, bind. rewrite Hmax. simpl.
  destruct s. unfold grown_to. simpl. by rewrite app_nil_r.
Qed.

Lemma grown_to_id (s : acc) : grown_to s (known_lfns s) [] = s.
Proof. destruct s. unfold grown_to. simpl. by rewrite app_nil_r. Qed.

Ltac quiet_step Hr H Ht :=
  match type of Hr with
  | context [bind ?m ?k (grown_to ?s ?K ?t)] =>
      let t' := fresh "t" in
      let Ht' := fresh "Hq" in
      let Heq := fresh "Heq" in
      destruct (bind_quiet_run m k _ s K t H Ht) as (t' & Ht' & Heq);
      rewrite Heq in Hr; clear Heq; cbv beta iota in Hr
  end.

Ltac quiet_end Hr H Ht :=
  match type of Hr with
  | _ = ?m (grown_to ?s ?K ?t) =>
      let t' := fresh "t" in
      let Ht' := fresh "Hq" in
      let Heq := fresh "Heq" in
      destruct (quiet_run_final m _ s K t H Ht) as (t' & Ht' & Heq);
      rewrite Heq in Hr; clear Heq
  end.

Lemma quiet_run_get_campaign_name (das_key : option string) :
  quiet_run (get_campaign_name w das_key) (campaign_of das_key).
Proof.
  intros s. rewrite get_campaign_name_run. eexists. split; [|done].
  by destruct (bool_decide (das_key = None) && verbose w).
Qed.

(** An attempt either stops before the storage element is touched, with the
    done LFNs and the anomalous outputs as they were, or it loads the
    outputs and classifies what [attempt_plan] gives. *)
Lemma check_crab_directory_course_from sample_dir sample_name suffix das_key
    status_file wlcg_dir wlcg_prefix job_input_file (s : acc) t0 :
  quiet t0 →
  let crab_dir := crab_dir_of sample_dir sample_name suffix in
  let input_path := PosixPath.join crab_dir job_input_file in
  let im := load_input_map w input_path in
  let plan := attempt_plan py_int w sample_dir sample_name suffix das_key
                status_file wlcg_dir wlcg_prefix job_input_file in
  let r := check_crab_directory py_int w sample_dir sample_name suffix das_key
             status_file wlcg_dir wlcg_prefix job_input_file
             (grown_to s (known_lfns s) t0) in
  (∃ t, quiet t ∧ r = (Ok tt, grown_to s (known_lfns s) t) ∧
        (path_exists w crab_dir = false ∨ path_exists w input_path = false ∨
         im = ∅) ∧ plan = None) ∨
  (∃ e t, quiet t ∧
          r = (Err e, grown_to s (known_lfns s ∪ flat_lfns_of im) t) ∧
          path_exists w crab_dir = true ∧ path_exists w input_path = true ∧
          im ≠ ∅ ∧ plan = None) ∨
  (∃ st time_stamp campaign m outs t s2,
     path_exists w crab_dir = true ∧ path_exists w input_path = true ∧
     im ≠ ∅ ∧
     (∀ s', (get_status w sample_dir status_file crab_dir s').1 = Ok st) ∧
     check_status w st crab_dir = Returned ∧
     (∃ tn, task_name st = Some tn ∧ tn ≠ "" ∧
            time_stamp = List.hd "" (PyStr.split ":" tn)) ∧
     campaign_of das_key = Ok campaign ∧
     max_jobid py_int (default ∅ (details st)) = Ok m ∧
     quiet t ∧
     load_job_outputs py_int w
       (wlcg_path_of wlcg_prefix wlcg_dir campaign
          (crab_dirname_of sample_name suffix) time_stamp)
       (default ∅ (details st))
       (grown_to s (known_lfns s ∪ flat_lfns_of im) t) = (Ok outs, s2) ∧
     r = classify_finished im (default ∅ (details st)) outs
           (classify_failed im (default ∅ (details st)) outs s2).2 ∧
     plan = Some (im, default ∅ (details st), outs) ∧
     ∃ t', s2 = grown_to s (known_lfns s ∪ flat_lfns_of im) t').
Proof.
  intros Ht0 crab_dir input_path im plan r.
  assert (Hr : r = check_crab_directory py_int w sample_dir sample_name suffix
                     das_key status_file wlcg_dir wlcg_prefix job_input_file
                     (grown_to s (known_lfns s) t0)) by done.
  clearbody r. unfold check_crab_directory in Hr. fold crab_dir in Hr.
  quiet_step Hr (quiet_run_exists crab_dir) Ht0.
  destruct (path_exists w crab_dir) eqn:Hdir; cbn [negb] in Hr;
    cbv iota in Hr.
  2: { left. quiet_end Hr (quiet_run_print (verbose w)
         ("Directory " +:+ crab_dir +:+
          " does not exist, will stop looking here")) Hq.
       exists t1. split_and!; auto. subst plan. unfold attempt_plan.
       cbv zeta. fold crab_dir. by rewrite Hdir. }
  quiet_step Hr (quiet_run_get_job_inputs crab_dir job_input_file) Hq.
  fold input_path in Hr. destruct (path_exists w input_path) eqn:Hfile.
  2: { left. quiet_end Hr (quiet_run_print (verbose w)
         ("WARNING: could not load input map for directory " +:+ crab_dir))
         Hq0.
       exists t2. split_and!; auto. subst plan. unfold attempt_plan.
       cbv zeta. fold crab_dir input_path. by rewrite Hdir, Hfile. }
  fold im in Hr. destruct (decide (size im = 0%nat)) as [Hsz|Hsz].
  { left. quiet_end Hr (quiet_run_print (verbose w)
         ("WARNING: could not load input map for directory " +:+ crab_dir))
         Hq0.
    exists t2. split_and!; auto.
    - apply map_size_empty_iff in Hsz. auto.
    - subst plan. unfold attempt_plan. cbv zeta.
      fold crab_dir input_path im. rewrite Hdir, Hfile. simpl.
      by case_decide. }
  assert (Him : im ≠ ∅) by (by rewrite <- map_size_empty_iff).
  (* the sanity checks on the known LFNs *)
  destruct (update_known_run crab_dir (flat_lfns_of im)
              (grown_to s (known_lfns s) t1)) as (tu & Hqu & Hupd).
  rewrite grown_to_grown_to in Hupd. simpl in Hupd.
  unfold bind at 1 in Hr. rewrite Hupd in Hr.
  assert (Hq1 : quiet (t1 ++ tu)) by (by apply quiet_app).
  set (K := known_lfns s ∪ flat_lfns_of im) in *.
  (* the status *)
  pose proof (quiet_run_get_status sample_dir status_file crab_dir) as Hst.
  simpl in Hst.
  change (quiet_run (get_status w sample_dir status_file crab_dir)
            (status_of w sample_dir status_file)) in Hst.
  quiet_step Hr Hst Hq1.
  destruct (status_of w sample_dir status_file) as [st|e] eqn:Hrst.
  2: { right. left. exists e, t2. split_and!; auto.
       subst plan. unfold attempt_plan. cbv zeta.
       fold crab_dir input_path im. rewrite Hdir, Hfile, Hrst. simpl.
       by case_decide. }
  assert (Hget : ∀ s', (get_status w sample_dir status_file crab_dir s').1
                       = Ok st).
  { intros s'. destruct (Hst s') as (? & _ & ->). done. }
  assert (Hplan : plan
    = match check_status w st crab_dir, task_name st, campaign_of das_key,
            max_jobid py_int (default ∅ (details st)) with
      | Returned, Some t, Ok campaign, Ok max_id =>
          if String.eqb t "" then None
          else Some (im, default ∅ (details st),
                     remote_files w
                       (wlcg_path_of wlcg_prefix wlcg_dir campaign
                          (crab_dirname_of sample_name suffix)
                          (List.hd "" (PyStr.split ":" t))) max_id)
      | _, _, _, _ => None
      end).
  { subst plan. unfold attempt_plan. cbv zeta.
    fold crab_dir input_path im. rewrite Hdir, Hfile, Hrst. simpl.
    by case_decide. }
  clearbody plan.
  quiet_step Hr (quiet_run_lift_outcome (check_status w st crab_dir)) Hq2.
  destruct (check_status w st crab_dir) eqn:Hcheck.
  2: { right. left. exists e, t3. split_and!; auto. }
  (* the time stamp *)
  destruct (task_name st) as [tn|] eqn:Htn.
  2: { right. left.
       quiet_step Hr (quiet_run_raise (A:=string) ValueError) Hq3.
       exists ValueError, t4. split_and!; auto. }
  destruct (String.eqb_spec tn "") as [->|Htn'].
  { right. left.
    quiet_step Hr (quiet_run_raise (A:=string) ValueError) Hq3.
    exists ValueError, t4. split_and!; auto.
    rewrite Hplan. by repeat case_match. }
  quiet_step Hr (quiet_run_ret (List.hd "" (PyStr.split ":" tn))) Hq3.
  quiet_step Hr (quiet_run_get_campaign_name das_key) Hq4.
  destruct (campaign_of das_key) as [campaign|e] eqn:Hcamp.
  2: { right. left. exists e, t5. split_and!; auto. }
  (* the outputs and the classification *)
  change (wlcg_prefix +:+ wlcg_dir +:+ "/" +:+ campaign +:+ "/" +:+
          crab_dirname_of sample_name suffix +:+ "/" +:+
          List.hd "" (PyStr.split ":" tn))
    with (wlcg_path_of wlcg_prefix wlcg_dir campaign
            (crab_dirname_of sample_name suffix)
            (List.hd "" (PyStr.split ":" tn))) in Hr.
  set (tmpl := wlcg_path_of wlcg_prefix wlcg_dir campaign
                 (crab_dirname_of sample_name suffix)
                 (List.hd "" (PyStr.split ":" tn))) in *.
  destruct (max_jobid py_int (default ∅ (details st))) as [m|e] eqn:Hmax.
  2: { right. left.
       quiet_step Hr (quiet_run_load_job_outputs_err tmpl _ _ Hmax) Hq5.
       exists e, t6. split_and!; auto. }
  right. right.
  destruct (load_job_outputs_run py_int w tmpl (default ∅ (details st)) m
              (grown_to s K t5) Hmax) as (t' & Hload).
  exists st, (List.hd "" (PyStr.split ":" tn)), campaign, m,
    (remote_files w tmpl m), t5,
    (with_trace (grown_to s K t5) (trace (grown_to s K t5) ++ t')).
  split_and!; try done; [by exists tn| |].
  - unfold bind at 1 in Hr. rewrite Hload in Hr.
    unfold bind in Hr.
    destruct (classify_failed_spec im (default ∅ (details st))
                (remote_files w tmpl m)
                (with_trace (grown_to s K t5)
                   (trace (grown_to s K t5) ++ t')))
      as [Hfail _].
    rewrite Hfail in Hr. rewrite Hfail. done.
  - exists (t5 ++ t')%list. unfold with_trace, grown_to. simpl.
    by rewrite app_assoc.
Qed.

End Attempt.

(** ** What one attempt does to the sets *)

Section AttemptProperties.

Variable py_int : string -> option Z.
Variable w : world.

Implicit Types (im : gmap string (list string)) (jd : gmap string job_info).

Lemma check_crab_directory_course sample_dir sample_name suffix das_key
    status_file wlcg_dir wlcg_prefix job_input_file (s : acc) :
  let crab_dir := crab_dir_of sample_dir sample_name suffix in
  let input_path := PosixPath.join crab_dir job_input_file in
  let im := load_input_map w input_path in
  let plan := attempt_plan py_int w sample_dir sample_name suffix das_key
                status_file wlcg_dir wlcg_prefix job_input_file in
  let r := check_crab_directory py_int w sample_dir sample_name suffix das_key
             status_file wlcg_dir wlcg_prefix job_input_file s in
  (∃ t, quiet t ∧ r = (Ok tt, grown_to s (known_lfns s) t) ∧
        (path_exists w crab_dir = false ∨ path_exists w input_path = false ∨
         im = ∅) ∧ plan = None) ∨
  (∃ e t, quiet t ∧
          r = (Err e, grown_to s (known_lfns s ∪ flat_lfns_of im) t) ∧
          path_exists w crab_dir = true ∧ path_exists w input_path = true ∧
          im ≠ ∅ ∧ plan = None) ∨
  (∃ st time_stamp campaign m outs t s2,
     path_exists w crab_dir = true ∧ path_exists w input_path = true ∧
     im ≠ ∅ ∧
     (∀ s', (get_status w sample_dir status_file crab_dir s').1 = Ok st) ∧
     check_status w st crab_dir = Returned ∧
     (∃ tn, task_name st = Some tn ∧ tn ≠ "" ∧
            time_stamp = List.hd "" (PyStr.split ":" tn)) ∧
     campaign_of das_key = Ok campaign ∧
     max_jobid py_int (default ∅ (details st)) = Ok m ∧
     quiet t ∧
     load_job_outputs py_int w
       (wlcg_path_of wlcg_prefix wlcg_dir campaign
          (crab_dirname_of sample_name suffix) time_stamp)
       (default ∅ (details st))
       (grown_to s (known_lfns s ∪ flat_lfns_of im) t) = (Ok outs, s2) ∧
     r = classify_finished im (default ∅ (details st)) outs
           (classify_failed im (default ∅ (details st)) outs s2).2 ∧
     plan = Some (im, default ∅ (details st), outs) ∧
     ∃ t', s2 = grown_to s (known_lfns s ∪ flat_lfns_of im) t').
Proof.
  pose proof (check_crab_directory_course_from py_int w sample_dir sample_name
                suffix das_key status_file wlcg_dir wlcg_prefix job_input_file
                s [] quiet_nil) as H.
  cbv zeta in H. rewrite grown_to_id in H. exact H.
Qed.

Lemma check_crab_directory_cases sample_dir sample_name suffix das_key
    status_file wlcg_dir wlcg_prefix job_input_file (s : acc) :
  let crab_dir := crab_dir_of sample_dir sample_name suffix in
  let input_path := PosixPath.join crab_dir job_input_file in
  let im := load_input_map w input_path in
  let r := check_crab_directory py_int w sample_dir sample_name suffix das_key
             status_file wlcg_dir wlcg_prefix job_input_file s in
  (∃ t, quiet t ∧ r = (Ok tt, grown_to s (known_lfns s) t) ∧
        (path_exists w crab_dir = false ∨ path_exists w input_path = false ∨
         im = ∅)) ∨
  (∃ e t, quiet t ∧
          r = (Err e, grown_to s (known_lfns s ∪ flat_lfns_of im) t) ∧
          path_exists w crab_dir = true ∧ path_exists w input_path = true ∧
          im ≠ ∅) ∨
  (∃ st time_stamp campaign m outs t s2,
     path_exists w crab_dir = true ∧ path_exists w input_path = true ∧
     im ≠ ∅ ∧
     (∀ s', (get_status w sample_dir status_file crab_dir s').1 = Ok st) ∧
     check_status w st crab_dir = Returned ∧
     (∃ tn, task_name st = Some tn ∧ tn ≠ "" ∧
            time_stamp = List.hd "" (PyStr.split ":" tn)) ∧
     campaign_of das_key = Ok campaign ∧
     max_jobid py_int (default ∅ (details st)) = Ok m ∧
     quiet t ∧
     load_job_outputs py_int w
       (wlcg_path_of wlcg_prefix wlcg_dir campaign
          (crab_dirname_of sample_name suffix) time_stamp)
       (default ∅ (details st))
       (grown_to s (known_lfns s ∪ flat_lfns_of im) t) = (Ok outs, s2) ∧
     r = classify_finished im (default ∅ (details st)) outs
           (classify_failed im (default ∅ (details st)) outs s2).2).
Proof.
  intros crab_dir input_path im r.
  destruct (check_crab_directory_course sample_dir sample_name suffix das_key
              status_file wlcg_dir wlcg_prefix job_input_file s)
    as [(t & ? & ? & ? & _)|[(e & t & ? & ? & ? & ? & ? & _)|
        (st & ts & c & m & outs & t & s2 & ? & ? & ? & ? & ? & ? & ? & ? & ? &
         ? & ? & _)]].
  - left. by exists t.
  - right. left. by exists e, t.
  - right. right. by exists st, ts, c, m, outs, t, s2.
Qed.

Lemma check_job_outputs_raised (c : gset string) im jd state jo e c' :
  check_job_outputs c im jd state jo = (Raised e, c') → c' = c.
Proof.
  unfold check_job_outputs. repeat case_match; congruence.
Qed.

Lemma classify_finished_err im jd outs (s : acc) e :
  (classify_finished im jd outs s).1 = Err e →
  done_lfns (classify_finished im jd outs s).2 = done_lfns s.
Proof.
  unfold classify_finished.
  destruct (check_job_outputs (done_lfns s) im jd "finished" (Some outs))
    as [[|e'] c] eqn:Hc; simpl; [done|].
  intros _. by apply check_job_outputs_raised in Hc.
Qed.

Lemma load_job_outputs_sets tmpl jd (s : acc) :
  known_lfns (load_job_outputs py_int w tmpl jd s).2 = known_lfns s ∧
  done_lfns (load_job_outputs py_int w tmpl jd s).2 = done_lfns s ∧
  failed_job_outputs (load_job_outputs py_int w tmpl jd s).2
  = failed_job_outputs s.
Proof.
  destruct (only_emits_load_job_outputs py_int w tmpl jd s) as [t ->]. done.
Qed.

Lemma attempt_raising_done sample_dir sample_name suffix das_key
    status_file wlcg_dir wlcg_prefix job_input_file (s : acc) e :
  (check_crab_directory py_int w sample_dir sample_name suffix das_key
     status_file wlcg_dir wlcg_prefix job_input_file s).1 = Err e →
  done_lfns
    (check_crab_directory py_int w sample_dir sample_name suffix das_key
       status_file wlcg_dir wlcg_prefix job_input_file s).2
  = done_lfns s.
Proof.
  destruct (check_crab_directory_cases sample_dir sample_name suffix das_key
              status_file wlcg_dir wlcg_prefix job_input_file s)
    as [(t & _ & -> & _)|[(e' & t & _ & -> & _)|
        (st & ts & c & m & outs & t & s2 & _ & _ & _ & _ & _ & _ & _ & _ & _
         & Hload & ->)]]; [done|done|].
  intros Herr. rewrite (classify_finished_err _ _ _ _ _ Herr).
  destruct (classify_failed_spec (load_input_map w
              (PosixPath.join (crab_dir_of sample_dir sample_name suffix)
                 job_input_file)) (default ∅ (details st)) outs s2)
    as [-> _]. simpl.
  pose proof (load_job_outputs_sets
                (wlcg_path_of wlcg_prefix wlcg_dir c
                   (crab_dirname_of sample_name suffix) ts)
                (default ∅ (details st))
                (grown_to s (known_lfns s ∪ flat_lfns_of
                   (load_input_map w
                      (PosixPath.join
                         (crab_dir_of sample_dir sample_name suffix)
                         job_input_file))) t)) as (_ & Hd & _).
  rewrite Hload in Hd. done.
Qed.

(** X11.  An attempt that raises marks nothing done: whatever the
    exception and wherever it comes from, the done LFNs are those from
    before the attempt. *)
Theorem attempt_raising_keeps_done sample_dir sample_name suffix das_key
    status_file wlcg_dir wlcg_prefix job_input_file (s : acc) e :
  (check_crab_directory py_int w sample_dir sample_name suffix das_key
     status_file wlcg_dir wlcg_prefix job_input_file s).1 = Err e →
  done_lfns
    (check_crab_directory py_int w sample_dir sample_name suffix das_key
       status_file wlcg_dir wlcg_prefix job_input_file s).2
  = done_lfns s.
Proof. apply attempt_raising_done. Qed.

Lemma quiet_probes (s : acc) K t :
  quiet t →
  remote_probes (trace (grown_to s K t)) = remote_probes (trace s) ∧
  listdir_calls (trace (grown_to s K t)) = listdir_calls (trace s).
Proof.
  intros [H1 H2]. simpl.
  by rewrite remote_probes_app, listdir_calls_app, H1, H2, !app_nil_r.
Qed.

(** X12.  The storage element is touched only for an attempt that has
    passed every check: if [load_remote_output] has been called, then the
    crab directory and its input file exist, the input map is not empty,
    a status was found and passed the provenance check, it has a task name,
    the campaign name could be read and the job ids are integers. *)
Theorem listing_requires_checks sample_dir sample_name suffix das_key
    status_file wlcg_dir wlcg_prefix job_input_file (s : acc) :
  let crab_dir := crab_dir_of sample_dir sample_name suffix in
  let input_path := PosixPath.join crab_dir job_input_file in
  remote_probes
    (trace (check_crab_directory py_int w sample_dir sample_name suffix
              das_key status_file wlcg_dir wlcg_prefix job_input_file s).2)
  ≠ remote_probes (trace s) →
  path_exists w crab_dir = true ∧ path_exists w input_path = true ∧
  load_input_map w input_path ≠ ∅ ∧
  ∃ st tn campaign m,
    (get_status w sample_dir status_file crab_dir s).1 = Ok st ∧
    check_status w st crab_dir = Returned ∧
    task_name st = Some tn ∧ tn ≠ "" ∧
    (get_campaign_name w das_key s).1 = Ok campaign ∧
    max_jobid py_int (default ∅ (details st)) = Ok m.
Proof.
  intros crab_dir input_path Hne.
  destruct (check_crab_directory_cases sample_dir sample_name suffix das_key
              status_file wlcg_dir wlcg_prefix job_input_file s)
    as [(t & Hq & Hr & _)|[(e' & t & Hq & Hr & _)|
        (st & ts & c & m & outs & t & s2 & Hdir & Hfile & Him & Hget & Hcheck
         & (tn & Htn & Htn' & _) & Hcamp & Hmax & _)]].
  - rewrite Hr in Hne. simpl in Hne. destruct Hne.
    by apply (quiet_probes s (known_lfns s) t).
  - rewrite Hr in Hne. destruct Hne.
    by apply (quiet_probes s _ t).
  - split_and!; try done. exists st, tn, c, m. split_and!; try done.
    by rewrite get_campaign_name_run.
Qed.

(** X13.  An attempt whose input file is missing, or holds an empty map, is
    skipped and is no error: the call returns, the three sets are as they
    were, and nothing is listed on the storage element. *)
Theorem attempt_without_inputs_skipped sample_dir sample_name suffix das_key
    status_file wlcg_dir wlcg_prefix job_input_file (s : acc) :
  let input_path :=
    PosixPath.join (crab_dir_of sample_dir sample_name suffix) job_input_file in
  path_exists w input_path = false ∨ load_input_map w input_path = ∅ →
  ∃ t, quiet t ∧
    check_crab_directory py_int w sample_dir sample_name suffix das_key
      status_file wlcg_dir wlcg_prefix job_input_file s
    = (Ok tt, grown_to s (known_lfns s) t).
Proof.
  intros input_path Hskip.
  destruct (check_crab_directory_cases sample_dir sample_name suffix das_key
              status_file wlcg_dir wlcg_prefix job_input_file s)
    as [(t & Hq & Hr & _)|[(e' & t & _ & _ & _ & Hfile & Him)|
        (st & ts & c & m & outs & t & s2 & _ & Hfile & Him & _)]].
  - by exists t.
  - fold input_path in Hfile, Him. destruct Hskip; congruence.
  - fold input_path in Hfile, Him. destruct Hskip; congruence.
Qed.

(** X14.  Once the input map of an attempt has been read and is not empty,
    its LFNs are known when the attempt ends, however it ends: the known
    set is its union with the LFNs of the input map, also when the status
    is then missing or fails a check. *)
Theorem attempt_with_inputs_known sample_dir sample_name suffix das_key
    status_file wlcg_dir wlcg_prefix job_input_file (s : acc) :
  let crab_dir := crab_dir_of sample_dir sample_name suffix in
  let input_path := PosixPath.join crab_dir job_input_file in
  path_exists w crab_dir = true → path_exists w input_path = true →
  load_input_map w input_path ≠ ∅ →
  known_lfns
    (check_crab_directory py_int w sample_dir sample_name suffix das_key
       status_file wlcg_dir wlcg_prefix job_input_file s).2
  = known_lfns s ∪ flat_lfns_of (load_input_map w input_path).
Proof.
  intros crab_dir input_path Hdir Hfile Him.
  destruct (check_crab_directory_cases sample_dir sample_name suffix das_key
              status_file wlcg_dir wlcg_prefix job_input_file s)
    as [(t & Hq & Hr & Hskip)|[(e' & t & _ & -> & _)|
        (st & ts & c & m & outs & t & s2 & _ & _ & _ & _ & _ & _ & _ & _ & _
         & Hload & ->)]].
  - fold crab_dir input_path in Hskip. destruct Hskip as [?|[?|?]]; congruence.
  - done.
  - fold crab_dir input_path in Hload |- *.
    rewrite classify_finished_snd. simpl.
    destruct (classify_failed_spec (load_input_map w input_path)
                (default ∅ (details st)) outs s2) as [Hf _].
    rewrite ?Hf. simpl.
    pose proof (load_job_outputs_sets
                  (wlcg_path_of wlcg_prefix wlcg_dir c
                     (crab_dirname_of sample_name suffix) ts)
                  (default ∅ (details st))
                  (grown_to s (known_lfns s ∪ flat_lfns_of
                     (load_input_map w input_path)) t)) as (Hk & _).
    rewrite Hload in Hk. done.
Qed.

(** X15.  Along the cascade the known LFNs and the done LFNs only grow, and
    the events that were there stay, in their order, whether the cascade
    returns or raises. *)
Theorem cascade_monotone sample_dir sample_name das_key wlcg_dir wlcg_prefix
    (attempts : list (string * string)) (s : acc) :
  let s' := (cascade py_int w sample_dir sample_name das_key wlcg_dir
               wlcg_prefix attempts s).2 in
  known_lfns s ⊆ known_lfns s' ∧ done_lfns s ⊆ done_lfns s' ∧
  ∃ t, trace s' = (trace s ++ t)%list.
Proof.
  destruct (cascade_extends_by py_int w [] s sample_dir sample_name das_key
              wlcg_dir wlcg_prefix attempts s (extends_by_refl s))
    as (Hk & Hd & _ & t & Ht).
  simpl. split_and!; [done|done|]. by exists t.
Qed.

End AttemptProperties.

Lemma attempt_raising_keeps_done_witness :
  let w := Scenario.world1 0 Scenario.files1 in
  let attempt :=
    check_crab_directory Scenario.parse_int w "S" "S" "" None "status_0"
      "/pnfs" "srm:" "job_input_files.json" in
  let s1 := (attempt Scenario.acc0).2 in
  (attempt s1).1 = Err ValueError ∧
  done_lfns (attempt s1).2 = done_lfns s1 ∧
  done_lfns s1 = {[ "A" ]}.
Proof.
  intros w attempt s1.
  assert (H : (attempt s1).1 = Err ValueError) by (vm_compute; reflexivity).
  split_and!; [exact H| |vm_compute; reflexivity].
  exact (attempt_raising_keeps_done Scenario.parse_int w "S" "S" "" None
           "status_0" "/pnfs" "srm:" "job_input_files.json" s1 ValueError H).
Defined.

Lemma listing_requires_checks_witness :
  let w := Scenario.world1 0 Scenario.files1 in
  remote_probes
    (trace (check_crab_directory Scenario.parse_int w "S" "S" "" None
              "status_0" "/pnfs" "srm:" "job_input_files.json"
              Scenario.acc0).2)
  ≠ remote_probes (trace Scenario.acc0) ∧
  check_status w Scenario.st1 "S/crab_S" = Returned.
Proof.
  intros w.
  assert (H : remote_probes
                (trace (check_crab_directory Scenario.parse_int w "S" "S" ""
                          None "status_0" "/pnfs" "srm:"
                          "job_input_files.json" Scenario.acc0).2)
              ≠ remote_probes (trace Scenario.acc0))
    by (vm_compute; discriminate).
  split; [exact H|].
  destruct (listing_requires_checks Scenario.parse_int w "S" "S" "" None
              "status_0" "/pnfs" "srm:" "job_input_files.json"
              Scenario.acc0 H)
    as (_ & _ & _ & st & tn & c & m & Hst & Hcheck & _).
  vm_compute in Hst. injection Hst as <-. exact Hcheck.
Defined.

Lemma attempt_without_inputs_skipped_witness :
  let w := Scenario.world1 0 Scenario2.files_without_inputs in
  path_exists w (PosixPath.join (crab_dir_of "S" "S" "")
                   "job_input_files.json") = false ∧
  (check_crab_directory Scenario.parse_int w "S" "S" "" None "status_0"
     "/pnfs" "srm:" "job_input_files.json" Scenario.acc0).1 = Ok tt.
Proof.
  intros w.
  assert (H : path_exists w (PosixPath.join (crab_dir_of "S" "S" "")
                               "job_input_files.json") = false)
    by (vm_compute; reflexivity).
  split; [exact H|].
  destruct (attempt_without_inputs_skipped Scenario.parse_int w "S" "S" ""
              None "status_0" "/pnfs" "srm:" "job_input_files.json"
              Scenario.acc0 (or_introl H)) as (t & _ & ->).
  reflexivity.
Defined.

Lemma attempt_with_inputs_known_witness :
  let w := Scenario.world1 0 Scenario.files1 in
  path_exists w (crab_dir_of "S" "S" "") = true ∧
  path_exists w (PosixPath.join (crab_dir_of "S" "S" "")
                   "job_input_files.json") = true ∧
  load_input_map w (PosixPath.join (crab_dir_of "S" "S" "")
                      "job_input_files.json") ≠ ∅ ∧
  known_lfns
    (check_crab_directory Scenario.parse_int w "S" "S" "" None "status_0"
       "/pnfs" "srm:" "job_input_files.json" Scenario.acc0).2
  = {[ "A"; "B"; "C" ]}.
Proof.
  intros w.
  assert (H1 : path_exists w (crab_dir_of "S" "S" "") = true)
    by (vm_compute; reflexivity).
  assert (H2 : path_exists w (PosixPath.join (crab_dir_of "S" "S" "")
                                "job_input_files.json") = true)
    by (vm_compute; reflexivity).
  assert (H3 : load_input_map w (PosixPath.join (crab_dir_of "S" "S" "")
                                   "job_input_files.json") ≠ ∅)
    by (vm_compute; discriminate).
  split_and!; [exact H1|exact H2|exact H3|].
  rewrite (attempt_with_inputs_known Scenario.parse_int w "S" "S" "" None
             "status_0" "/pnfs" "srm:" "job_input_files.json" Scenario.acc0
             H1 H2 H3).
  vm_compute. reflexivity.
Defined.

(** ** An attempt without [gfal2] *)

Section WithoutGfal2.

Variable py_int : string -> option Z.
Variable w : world.

Lemma failed_pass_empty (c : gset string) im jd :
  check_job_outputs c im jd "failed" (Some ∅) = (Returned, c).
Proof.
  unfold check_job_outputs.
  destruct (decide ("failed" = "failed")) as [_|?]; [|done].
  f_equal. set_solver.
Qed.

Lemma attempt_without_gfal2_done sample_dir sample_name suffix das_key
    status_file wlcg_dir wlcg_prefix job_input_file (s s' : acc) :
  let crab_dir := crab_dir_of sample_dir sample_name suffix in
  let input_path := PosixPath.join crab_dir job_input_file in
  let im := load_input_map w input_path in
  gfal2 w = false →
  path_exists w crab_dir = true → path_exists w input_path = true →
  im ≠ ∅ →
  check_crab_directory py_int w sample_dir sample_name suffix das_key
    status_file wlcg_dir wlcg_prefix job_input_file s = (Ok tt, s') →
  ∃ st,
    (get_status w sample_dir status_file crab_dir s).1 = Ok st ∧
    failed_job_outputs s' = failed_job_outputs s ∧
    ∀ l, l ∈ done_lfns s' ↔
         l ∈ done_lfns s ∨
         ∃ j info ls, default ∅ (details st) !! j = Some info ∧
                      State info = "finished" ∧
                      im !! j = Some ls ∧ l ∈ ls.
Proof.
  intros crab_dir input_path im Hg Hdir Hfile Him Hrun.
  destruct (check_crab_directory_cases py_int w sample_dir sample_name suffix
              das_key status_file wlcg_dir wlcg_prefix job_input_file s)
    as [(t & Hq & Hr & Hskip)|[(e' & t & _ & Hr & _)|
        (st & ts & c & m & outs & t & s2 & _ & _ & _ & Hget & _ & _ & _ & Hmax
         & _ & Hload & Hr)]].
  - fold crab_dir input_path im in Hskip.
    destruct Hskip as [?|[?|?]]; congruence.
  - congruence.
  - fold crab_dir input_path im in Hload, Hr.
    exists st. split; [apply Hget|].
    set (jd := default ∅ (details st)) in *.
    set (s1 := grown_to s (known_lfns s ∪ flat_lfns_of im) t) in *.
    (* nothing can be listed *)
    destruct (load_job_outputs_files py_int w
                (wlcg_path_of wlcg_prefix wlcg_dir c
                   (crab_dirname_of sample_name suffix) ts) jd m s1 Hmax)
      as (outs' & Hok & Hempty & _).
    rewrite Hload in Hok. simpl in Hok. injection Hok as <-.
    rewrite (Hempty (or_introl Hg)) in *.
    pose proof (load_job_outputs_sets py_int w
                  (wlcg_path_of wlcg_prefix wlcg_dir c
                     (crab_dirname_of sample_name suffix) ts) jd s1)
      as (_ & Hd2 & Hf2).
    rewrite Hload in Hd2, Hf2. simpl in Hd2, Hf2.
    (* the two passes *)
    rewrite Hrun in Hr. symmetry in Hr.
    unfold classify_finished, classify_failed in Hr.
    rewrite failed_pass_empty in Hr. simpl in Hr.
    destruct (check_job_outputs (done_lfns s2) im jd "finished" (Some ∅))
      as [[|e] c'] eqn:Hfin; simpl in Hr; [|done].
    injection Hr as <-. simpl. split; [done|].
    apply check_finished_returned in Hfin as (lfns & Hgl & _ & ->).
    destruct (relevant_ids_unfiltered jd "finished") as [He _].
    rewrite He in Hgl. intros l.
    rewrite elem_of_union, (elem_of_gather_lfns _ _ _ _ Hgl), Hd2.
    setoid_rewrite elem_of_ids_in_state. naive_solver.
Qed.

(** X16.  Without [gfal2] nothing can be listed, and an attempt that
    returns then takes the status at its word: the LFNs of every job whose
    state is "finished" are done, with no output to show for them, and no
    anomalous output is recorded. *)
Theorem attempt_without_gfal2 sample_dir sample_name suffix das_key
    status_file wlcg_dir wlcg_prefix job_input_file (s s' : acc) :
  let crab_dir := crab_dir_of sample_dir sample_name suffix in
  let input_path := PosixPath.join crab_dir job_input_file in
  let im := load_input_map w input_path in
  gfal2 w = false →
  path_exists w crab_dir = true → path_exists w input_path = true →
  im ≠ ∅ →
  check_crab_directory py_int w sample_dir sample_name suffix das_key
    status_file wlcg_dir wlcg_prefix job_input_file s = (Ok tt, s') →
  ∃ st,
    (get_status w sample_dir status_file crab_dir s).1 = Ok st ∧
    failed_job_outputs s' = failed_job_outputs s ∧
    ∀ l, l ∈ done_lfns s' ↔
         l ∈ done_lfns s ∨
         ∃ j info ls, default ∅ (details st) !! j = Some info ∧
                      State info = "finished" ∧
                      im !! j = Some ls ∧ l ∈ ls.
Proof. apply attempt_without_gfal2_done. Qed.

End WithoutGfal2.

Lemma attempt_without_gfal2_witness :
  let w := Scenario2.world_without_gfal2 in
  let r := check_crab_directory Scenario.parse_int w "S" "S" "" None
             "status_0" "/pnfs" "srm:" "job_input_files.json"
             Scenario.acc0 in
  gfal2 w = false ∧ r.1 = Ok tt ∧
  done_lfns r.2 = {[ "A"; "C" ]} ∧ failed_job_outputs r.2 = ∅.
Proof.
  intros w r.
  assert (Hg : gfal2 w = false) by reflexivity.
  assert (Hr : r = (Ok tt, r.2)) by (vm_compute; reflexivity).
  assert (H1 : path_exists w (crab_dir_of "S" "S" "") = true)
    by (vm_compute; reflexivity).
  assert (H2 : path_exists w (PosixPath.join (crab_dir_of "S" "S" "")
                                "job_input_files.json") = true)
    by (vm_compute; reflexivity).
  assert (H3 : load_input_map w (PosixPath.join (crab_dir_of "S" "S" "")
                                   "job_input_files.json") ≠ ∅)
    by (vm_compute; discriminate).
  destruct (attempt_without_gfal2 Scenario.parse_int w "S" "S" "" None
              "status_0" "/pnfs" "srm:" "job_input_files.json"
              Scenario.acc0 r.2 Hg H1 H2 H3 Hr) as (st & _ & Hf & _).
  split_and!; [exact Hg|by rewrite Hr|vm_compute; reflexivity|].
  rewrite Hf. reflexivity.
Defined.

(** ** The summary of a sample *)

Section Summary.

Variable py_int : string -> option Z.
Variable w : world.

Lemma summarise_run (sample_dir : string) (n_total : Z) (dump : bool)
    (s : acc) :
  ∃ d t,
    summarise w sample_dir n_total dump s
    = (Ok d, with_trace s (trace s ++ t)%list) ∧
    das_total d = n_total ∧
    total d = Z.of_nat (size (known_lfns s)) ∧
    done_count d = Z.of_nat (size (done_lfns s)) ∧
    outputs_from_failed_jobs d = Z.of_nat (size (failed_job_outputs s)) ∧
    missing d
    = Z.of_nat (size (symmetric_difference (known_lfns s) (done_lfns s))).
Proof.
  unfold summarise.
  match goal with
  | |- ∃ d t, bind ?m (fun _ => ret ?d0) s = _ ∧ _ =>
      assert (Hm : emits_ok (bind m (fun _ => ret d0)) d0)
  end.
  { eapply emits_ok_bind; [|apply emits_ok_ret].
    apply emits_ok_when.
    eapply emits_ok_bind; apply emits_ok_when;
      (eapply emits_ok_bind; [apply emits_ok_emit|]);
      [eapply emits_ok_bind; [apply emits_ok_emit|]|];
      apply emits_ok_for_each; intros; apply emits_ok_emit. }
  destruct (Hm s) as [t Ht]. eexists _, t. split; [exact Ht|]. done.
Qed.

(** What a summary that was returned says of the sets. *)
Lemma reconcile_run (sample_dir wlcg_dir wlcg_prefix : string)
    (attempts : list (string * string)) (dump : bool) (tr : list event)
    (name : string) (d : sample_dict_t) (s : acc) :
  reconcile py_int w sample_dir wlcg_dir wlcg_prefix attempts dump tr
  = (Ok (name, d), s) →
  let K := get_dbs_lfns w (das_key_of w name) in
  name = PosixPath.basename (PyStr.strip "/" sample_dir) ∧
  K ⊆ known_lfns s ∧ done_lfns s ⊆ known_lfns s ∧
  das_total d = (if decide (0 < size K)%nat then Z.of_nat (size K)
                 else das_num_file w (das_key_of w name)) ∧
  total d = Z.of_nat (size (known_lfns s)) ∧
  done_count d = Z.of_nat (size (done_lfns s)) ∧
  outputs_from_failed_jobs d = Z.of_nat (size (failed_job_outputs s)) ∧
  missing d = Z.of_nat (size (known_lfns s ∖ done_lfns s)).
Proof.
  rewrite reconcile_unfold.
  set (sd := PyStr.strip "/" sample_dir).
  set (nm := PosixPath.basename sd).
  set (key := das_key_of w nm).
  set (s0 := {| known_lfns := get_dbs_lfns w key; done_lfns := ∅;
                failed_job_outputs := ∅;
                trace := (tr ++ das_key_events w nm)%list |}).
  set (n := if decide (0 < size (get_dbs_lfns w key))%nat then _ else _).
  intros Hrun.
  assert (H0 : done_known s0) by (unfold done_known; set_solver).
  pose proof (cascade_done_known py_int w sd nm key wlcg_dir wlcg_prefix
                attempts s0 H0) as Hinv.
  pose proof (cascade_extends_by py_int w [] s0 sd nm key wlcg_dir wlcg_prefix
                attempts s0 (extends_by_refl s0)) as (Hk & _).
  unfold bind in Hrun.
  destruct (cascade py_int w sd nm key wlcg_dir wlcg_prefix attempts s0)
    as [[[]|e] s1]; [|done].
  simpl in Hinv, Hk.
  destruct (summarise_run sd n dump s1)
    as (d' & t & Hsum & Hdas & Htot & Hdone & Hfail & Hmiss).
  rewrite Hsum in Hrun. unfold ret in Hrun.
  injection Hrun as <- <- <-.
  unfold done_known in Hinv. simpl.
  rewrite (symmetric_difference_subseteq py_int _ _ Hinv) in Hmiss.
  split_and!; done.
Qed.

(** X17.  In a summary that was returned the counts add up: the total is
    the number of done LFNs plus the number of missing ones, and the sample
    is named after the last component of its directory. *)
Theorem summary_counts_add_up (sample_dir wlcg_dir wlcg_prefix : string)
    (attempts : list (string * string)) (dump : bool) (tr : list event)
    (name : string) (d : sample_dict_t) (s : acc) :
  reconcile py_int w sample_dir wlcg_dir wlcg_prefix attempts dump tr
  = (Ok (name, d), s) →
  total d = done_count d + missing d ∧
  0 <= done_count d ∧ 0 <= missing d ∧
  name = PosixPath.basename (PyStr.strip "/" sample_dir).
Proof.
  intros (Hname & _ & Hsub & _ & Htot & Hdone & _ & Hmiss)%reconcile_run.
  split_and!; [|lia|lia|done].
  rewrite Htot, Hdone, Hmiss, <- Nat2Z.inj_add. f_equal.
  rewrite <- size_union by set_solver. f_equal.
  apply set_eq. intros x. rewrite elem_of_union, elem_of_difference.
  destruct (decide (x ∈ done_lfns s)); naive_solver.
Qed.

(** X18.  When the catalogue knows the sample, its LFNs stay known and the
    catalogue total is their number, at most the observed total; such a
    sample needs no attention exactly when the known LFNs and the done LFNs
    are both the LFNs of the catalogue. *)
Theorem summary_against_catalogue (sample_dir wlcg_dir wlcg_prefix : string)
    (attempts : list (string * string)) (dump : bool) (tr : list event)
    (name : string) (d : sample_dict_t) (s : acc) :
  reconcile py_int w sample_dir wlcg_dir wlcg_prefix attempts dump tr
  = (Ok (name, d), s) →
  let K := get_dbs_lfns w (das_key_of w name) in
  K ≠ ∅ →
  K ⊆ known_lfns s ∧
  das_total d = Z.of_nat (size K) ∧ das_total d <= total d ∧
  (needs_attention d = false ↔ known_lfns s = K ∧ done_lfns s = K).
Proof.
  intros (_ & HK & Hsub & Hdas & Htot & _ & _ & Hmiss)%reconcile_run K Hne.
  fold K in HK, Hdas.
  assert (Hpos : (0 < size K)%nat).
  { destruct (size K) eqn:Hs; [|lia]. by apply size_zero_empty in Hs. }
  destruct (decide (0 < size K)%nat) as [_|?]; [|done].
  assert (Hle : (size K <= size (known_lfns s))%nat)
    by (by apply subseteq_size).
  split_and!; [done|done|lia|].
  rewrite <- not_true_iff_false, needs_attention_true.
  rewrite Hdas, Htot, Hmiss. split.
  - intros Hno.
    assert (Hm : size (known_lfns s ∖ done_lfns s) = 0%nat).
    { destruct (size (known_lfns s ∖ done_lfns s)) eqn:Hs; [done|].
      destruct Hno. left. lia. }
    assert (Hsz : size K = size (known_lfns s)).
    { destruct (decide (size K = size (known_lfns s))) as [|Hd]; [done|].
      destruct Hno. right. lia. }
    assert (Hkd : known_lfns s = done_lfns s).
    { apply size_empty_inv in Hm. apply set_eq. intros x. split; [|apply Hsub].
      intros Hx. destruct (decide (x ∈ done_lfns s)); [done|]. set_solver. }
    assert (HKk : known_lfns s = K).
    { symmetry. apply set_eq. apply set_subseteq_size_equiv; [done|lia]. }
    split; [done|]. by rewrite <- Hkd.
  - intros [Hk Hd]. rewrite Hk, Hd.
    assert (K ∖ K = ∅) as -> by set_solver. rewrite size_empty.
    intros [?|[_ ?]]; lia.
Qed.

End Summary.

Lemma summary_counts_add_up_witness :
  let r := reconcile Scenario.parse_int (Scenario.world1 0 Scenario.files2)
             "S/" "/pnfs" "srm:" Scenario.attempts false [] in
  ∃ d, r = (Ok ("S", d), r.2) ∧
       total d = 3 ∧ done_count d = 2 ∧ missing d = 1 ∧
       total d = done_count d + missing d.
Proof.
  intros r.
  assert (Hr : ∃ d, r = (Ok ("S", d), r.2) ∧
                    total d = 3 ∧ done_count d = 2 ∧ missing d = 1).
  { exists (match r.1 with
            | Ok (_, d) => d
            | Err _ => {| das_total := 0; total := 0; done_count := 0;
                          outputs_from_failed_jobs := 0; missing := 0;
                          total_lfns := None; done_lfns_list := None;
                          missing_lfns := None; failed_outputs := None |}
            end).
    split_and!; vm_compute; reflexivity. }
  destruct Hr as (d & Hd & H1 & H2 & H3). exists d.
  split_and!; [exact Hd|exact H1|exact H2|exact H3|].
  exact (proj1 (summary_counts_add_up Scenario.parse_int
                  (Scenario.world1 0 Scenario.files2) "S/" "/pnfs" "srm:"
                  Scenario.attempts false [] "S" d r.2 Hd)).
Defined.

Lemma summary_against_catalogue_witness :
  let w := Scenario2.world_with_catalogue in
  let r := reconcile Scenario.parse_int w "S/" "/pnfs" "srm:"
             Scenario.attempts false [] in
  ∃ d, r = (Ok ("S", d), r.2) ∧
       get_dbs_lfns w (das_key_of w "S") ≠ ∅ ∧
       das_total d = 3 ∧ das_total d <= total d.
Proof.
  intros w r.
  assert (Hr : ∃ d, r = (Ok ("S", d), r.2)).
  { exists (match r.1 with
            | Ok (_, d) => d
            | Err _ => {| das_total := 0; total := 0; done_count := 0;
                          outputs_from_failed_jobs := 0; missing := 0;
                          total_lfns := None; done_lfns_list := None;
                          missing_lfns := None; failed_outputs := None |}
            end).
    vm_compute. reflexivity. }
  destruct Hr as (d & Hd). exists d.
  assert (HK : get_dbs_lfns w (das_key_of w "S") ≠ ∅)
    by (vm_compute; discriminate).
  destruct (summary_against_catalogue Scenario.parse_int w "S/" "/pnfs"
              "srm:" Scenario.attempts false [] "S" d r.2 Hd HK)
    as (_ & Hdas & Hle & _).
  split_and!; [exact Hd|exact HK| |exact Hle].
  rewrite Hdas. vm_compute. reflexivity.
Defined.

(** ** The summaries of a run *)

Section Main.

Variable py_int : string -> option Z.
Variable w : world.

Lemma dict_set_keys {V} (k : string) (v : V) (d : list (string * V)) (x : string) :
  x ∈ map fst (dict_set k v d) ↔ x = k ∨ x ∈ map fst d.
Proof.
  induction d as [|[k' v'] d IH]; simpl.
  - rewrite elem_of_cons, elem_of_nil. tauto.
  - destruct (String.eqb_spec k' k) as [->|Hne]; simpl.
    + rewrite !elem_of_cons. tauto.
    + rewrite !elem_of_cons, IH. tauto.
Qed.

Lemma dict_set_NoDup {V} (k : string) (v : V) (d : list (string * V)) :
  NoDup (map fst d) → NoDup (map fst (dict_set k v d)).
Proof.
  induction d as [|[k' v'] d IH]; simpl.
  - intros _. apply NoDup_singleton.
  - intros [Hk' Hd]%NoDup_cons.
    destruct (String.eqb_spec k' k) as [->|Hne]; simpl.
    + by apply NoDup_cons.
    + apply NoDup_cons. split; [|by apply IH].
      rewrite dict_set_keys. intros [?|?]; congruence.
Qed.

Lemma dict_get_set_eq {V} (k : string) (v : V) (d : list (string * V)) :
  dict_get k (dict_set k v d) = Some v.
Proof.
  induction d as [|[k' v'] d IH]; simpl.
  - by rewrite String.eqb_refl.
  - destruct (String.eqb_spec k' k) as [->|Hne]; simpl.
    + by rewrite String.eqb_refl.
    + by destruct (String.eqb_spec k' k).
Qed.

Lemma reconcile_name sample_dir wlcg_dir wlcg_prefix attempts dump tr name d s :
  reconcile py_int w sample_dir wlcg_dir wlcg_prefix attempts dump tr
  = (Ok (name, d), s) →
  name = PosixPath.basename (PyStr.strip "/" sample_dir).
Proof. by intros (? & _)%reconcile_run. Qed.

Lemma main_loop_keys (sample_dirs : list string) wlcg_dir wlcg_prefix
    attempts dump (metas metas' : list (string * sample_dict_t)) tr tr' :
  main_loop py_int w sample_dirs wlcg_dir wlcg_prefix attempts dump metas tr
  = (Ok metas', tr') →
  (NoDup (map fst metas) → NoDup (map fst metas')) ∧
  ∀ x, x ∈ map fst metas' ↔
       x ∈ map fst metas ∨
       ∃ d, d ∈ sample_dirs ∧ path_exists w d = true ∧
            x = PosixPath.basename (PyStr.strip "/" d).
Proof.
  revert metas tr. induction sample_dirs as [|sd rest IH]; intros metas tr;
    simpl.
  - intros [= <- <-]. split; [done|]. intros x. split; [by left|].
    intros [?|(d & Hd & _)]; [done|]. by apply elem_of_nil in Hd.
  - destruct (path_exists w sd) eqn:Hex; simpl.
    + destruct (reconcile py_int w sd wlcg_dir wlcg_prefix attempts dump
                  (tr ++ [EvExists sd])) as [[[name d]|e] s] eqn:Hrec; [|done].
      apply reconcile_name in Hrec. intros [Hnd Hkeys]%IH. split.
      * intros H. by apply Hnd, dict_set_NoDup.
      * intros x. rewrite Hkeys, dict_set_keys.
        setoid_rewrite elem_of_cons. split.
        -- intros [[->|?]|(d0 & ? & ? & ?)]; [right|by left|right].
           ++ exists sd. auto.
           ++ exists d0. auto.
        -- intros [?|(d0 & [->|?] & ? & ->)]; [by left; right| |].
           ++ left. left. done.
           ++ right. exists d0. auto.
    + intros [Hnd Hkeys]%IH. split; [done|]. intros x. rewrite Hkeys.
      setoid_rewrite elem_of_cons. split.
      * intros [?|(d0 & ? & ? & ?)]; [by left|right]. exists d0. auto.
      * intros [?|(d0 & [->|?] & ? & ->)]; [by left|congruence|right].
        exists d0. auto.
Qed.

(** X19.  When [main] returns, there is one summary for each name, the
    names are the last components of the sample directories that exist (a
    directory that does not exist has no summary), and the samples that
    need attention are reported among them. *)
Theorem main_summaries (sample_dirs : list string) wlcg_dir wlcg_prefix
    suffices status_files dump metas flagged tr :
  main py_int w sample_dirs wlcg_dir wlcg_prefix suffices status_files dump
  = (Ok (metas, flagged), tr) →
  NoDup (map fst metas) ∧
  (∀ x, x ∈ map fst metas ↔
        ∃ d, d ∈ sample_dirs ∧ path_exists w d = true ∧
             x = PosixPath.basename (PyStr.strip "/" d)) ∧
  flagged = samples_with_missing_lfns metas ∧
  (∀ x, x ∈ flagged → x ∈ map fst metas).
Proof.
  unfold main.
  destruct (main_loop py_int w sample_dirs wlcg_dir wlcg_prefix
              (combine suffices status_files) dump [] [])
    as [[metas0|e] tr0] eqn:Hloop; [|done].
  apply main_loop_keys in Hloop as [Hnd Hkeys].
  intros Hmain.
  assert (metas = metas0 ∧ flagged = samples_with_missing_lfns metas0)
    as [-> ->] by (case_bool_decide; by injection Hmain as <- <- _).
  split_and!; [apply Hnd, NoDup_nil_2| |done|].
  - intros x. rewrite Hkeys. simpl. rewrite elem_of_nil. tauto.
  - intros x Hx. unfold samples_with_missing_lfns in Hx.
    apply list_elem_of_In, filter_In in Hx as [Hx _].
    by apply list_elem_of_In.
Qed.

End Main.

Lemma main_summaries_witness :
  let r := main Scenario.parse_int (Scenario.world1 0 Scenario.files2)
             ["S"; "T"; "S/"] "/pnfs" "srm:"
             [""; "recovery_1"; "recovery_2"]
             ["status_0"; "status_1"; "status"] false in
  ∃ metas flagged, r = (Ok (metas, flagged), r.2) ∧
    map fst metas = ["S"] ∧ flagged = ["S"].
Proof.
  intros r.
  assert (Hr : ∃ metas flagged, r = (Ok (metas, flagged), r.2) ∧
                                map fst metas = ["S"]).
  { exists (match r.1 with Ok (m, _) => m | Err _ => [] end),
           (match r.1 with Ok (_, f) => f | Err _ => [] end).
    split; vm_compute; reflexivity. }
  destruct Hr as (metas & flagged & Hr & Hk). exists metas, flagged.
  split_and!; [exact Hr|exact Hk|].
  destruct (main_summaries Scenario.parse_int
              (Scenario.world1 0 Scenario.files2) _ _ _ _ _ _ _ _ _ Hr)
    as (_ & _ & Hf & Hsub).
  assert (Hfl : (match r.1 with Ok (_, f) => f | Err _ => [] end) = ["S"])
    by (vm_compute; reflexivity).
  assert (Hr1 : r.1 = Ok (metas, flagged)) by (by rewrite Hr).
  rewrite Hr1 in Hfl. exact Hfl.
Defined.
